(** * FRAM driver (FRAM.c / FRAM.h): address codec, address cache and
      transaction sequencing over the I2C master component.

    The driver is embedded shallowly: [uint32_t] and [uint8_t] values are
    integers in [Z] with the wrap-around written out, arrays are lists
    updated by index, the static variable [FRAM_current_adr] and the state
    of the I2C component are threaded through a small state monad that also
    records every call made into the component. *)

From stdpp Require Import base numbers list.
Local Open Scope Z_scope.

(** ** Machine integers *)

Definition uint8_t (x : Z) : Z := x mod 2 ^ 8.
Definition uint32_t (x : Z) : Z := x mod 2 ^ 32.

(** ** Macros of FRAM.h and FRAM.c *)

Definition FRAM_SLAVE_ADR : Z := 0x50.
Definition FRAM_ADR_MAX : Z := 0x1ffff.
Definition FRAM_INVALID_ADR : Z := 0xffffffff.
Definition FRAM_PARAMTER_ERROR : Z := 0x200.
Definition FRAM_NO_ERROR : Z := 0.

Definition FRAM_ADR_BYTES : Z := 2.
Definition FRAM_PS_SHIFT : Z := 15.
Definition FRAM_MSB_SHIFT : Z := 8.
Definition FRAM_PS_MASK : Z := 0x10000.

Inductive FRAM_wait_t := FRAM_WAIT | FRAM_DONT_WAIT.

(** ** Arrays *)

(** [a[i] = v] on an object of [length a] bytes; [None] is a store outside
    the object. *)
Definition store (a : list Z) (i v : Z) : option (list Z) :=
  if bool_decide (0 <= i < Z.of_nat (length a))
  then Some (<[Z.to_nat i := v]> a) else None.

(** [a[i]]; [None] is a load outside the object. *)
Definition load (a : list Z) (i : Z) : option Z :=
  if bool_decide (0 <= i) then a !! Z.to_nat i else None.

(** ** FRAM_prep_adr

    The out-parameter [adr_ary] (three bytes at both call sites) is passed
    in and handed back; on the error path it is left as it was. *)
Definition FRAM_prep_adr (adr : Z) (adr_ary : list Z) : Z * list Z :=
  if bool_decide (adr > FRAM_ADR_MAX) then (FRAM_PARAMTER_ERROR, adr_ary)
  else
    let adr_ary := <[0%nat := uint8_t (Z.shiftr adr FRAM_MSB_SHIFT)]> adr_ary in
    let adr_ary := <[1%nat := uint8_t adr]> adr_ary in
    let adr_ary :=
      <[2%nat := uint8_t (Z.lor FRAM_SLAVE_ADR
                            (Z.shiftr (Z.land adr FRAM_PS_MASK) FRAM_PS_SHIFT))]>
        adr_ary in
    (FRAM_NO_ERROR, adr_ary).

(** ** The I2C master component

    [project.h] is generated by the IDE for the component instance named by
    [I2C_INSTANCE] and is not part of the driver's sources: the status
    constants and the three API functions the driver calls through
    [I2C_API] are therefore parameters.  A transfer function returns its
    status word and the component's next state; the bytes handed to
    [I2C_I2CMasterWriteBuf] are the first [cnt] bytes behind [wrData]. *)
Record I2C_component := {
  I2C_state : Type;
  I2C_I2C_MSTR_NO_ERROR : Z;
  I2C_I2C_MSTAT_WR_CMPLT : Z;
  I2C_I2C_MSTAT_RD_CMPLT : Z;
  I2C_I2C_MODE_COMPLETE_XFER : Z;
  I2C_I2CMasterWriteBuf :
    Z -> list Z -> Z -> Z -> I2C_state -> Z * I2C_state;
  I2C_I2CMasterReadBuf : Z -> Z -> Z -> I2C_state -> Z * I2C_state;
  I2C_I2CMasterStatus : I2C_state -> Z * I2C_state
}.

(** Calls into the component, in the order they are made. *)
Inductive I2C_call :=
| MasterWriteBuf (slaveAddress : Z) (wrData : list Z) (cnt mode : Z)
| MasterReadBuf (slaveAddress cnt mode : Z)
| MasterStatus.

Definition is_write (c : I2C_call) : bool :=
  match c with MasterWriteBuf _ _ _ _ => true | _ => false end.
Definition is_read (c : I2C_call) : bool :=
  match c with MasterReadBuf _ _ _ => true | _ => false end.
Definition is_transfer (c : I2C_call) : bool := is_write c || is_read c.

(** The write transfers, and all transfers, among a list of calls. *)
Definition write_calls (l : list I2C_call) : list I2C_call :=
  filter (fun c => is_write c = true) l.
Definition transfer_calls (l : list I2C_call) : list I2C_call :=
  filter (fun c => is_transfer c = true) l.

Section Driver.
Variable I2C : I2C_component.

(** The driver's state: the static [FRAM_current_adr], the component and
    the calls made so far. *)
Record driver := {
  FRAM_current_adr : Z;
  i2c : I2C_state I2C;
  calls : list I2C_call
}.

(** [Undefined]: a load or store outside an object.  [Spinning]: a loop
    that has not left after the iterations allowed to it. *)
Inductive outcome (A : Type) :=
| Done (a : A) (d : driver)
| Undefined
| Spinning.
Global Arguments Done {A} a d.
Global Arguments Undefined {A}.
Global Arguments Spinning {A}.

Definition M (A : Type) : Type := driver -> outcome A.

Definition ret {A} (a : A) : M A := fun d => Done a d.
Definition bind {A B} (m : M A) (k : A -> M B) : M B :=
  fun d => match m d with
           | Done a d' => k a d'
           | Undefined => Undefined
           | Spinning => Spinning
           end.
Definition defined {A} (o : option A) : M A :=
  fun d => match o with Some a => Done a d | None => Undefined end.

Local Notation "'let*' x ':=' m 'in' k" := (bind m (fun x => k))
  (at level 10, x name, m at level 100, k at level 200).
Local Notation "'run' m 'then' k" := (bind m (fun _ => k))
  (at level 10, m at level 100, k at level 200).

Definition get_current_adr : M Z := fun d => Done (FRAM_current_adr d) d.
Definition set_current_adr (a : Z) : M unit :=
  fun d => Done tt {| FRAM_current_adr := a; i2c := i2c d; calls := calls d |}.

Definition MasterWriteBuf_call (slave : Z) (wrData : list Z) (cnt : Z) : M Z :=
  fun d =>
    let mode := I2C_I2C_MODE_COMPLETE_XFER I2C in
    let bytes := take (Z.to_nat cnt) wrData in
    let '(r, s) := I2C_I2CMasterWriteBuf I2C slave bytes cnt mode (i2c d) in
    Done r {| FRAM_current_adr := FRAM_current_adr d; i2c := s;
              calls := calls d ++ [MasterWriteBuf slave bytes cnt mode] |}.

Definition MasterReadBuf_call (slave cnt : Z) : M Z :=
  fun d =>
    let mode := I2C_I2C_MODE_COMPLETE_XFER I2C in
    let '(r, s) := I2C_I2CMasterReadBuf I2C slave cnt mode (i2c d) in
    Done r {| FRAM_current_adr := FRAM_current_adr d; i2c := s;
              calls := calls d ++ [MasterReadBuf slave cnt mode] |}.

Definition MasterStatus_call : M Z :=
  fun d =>
    let '(r, s) := I2C_I2CMasterStatus I2C (i2c d) in
    Done r {| FRAM_current_adr := FRAM_current_adr d; i2c := s;
              calls := calls d ++ [MasterStatus] |}.

(** [while (0u == (I2CMasterStatus() & flag)) {}], at most [fuel] polls. *)
Fixpoint busy_wait (fuel : nat) (flag : Z) : M unit :=
  match fuel with
  | O => fun _ => Spinning
  | S fuel =>
      let* st := MasterStatus_call in
      if bool_decide (0 = Z.land st flag) then busy_wait fuel flag
      else ret tt
  end.

(** [if(!(i2c_result & I2C_I2C_MSTR_NO_ERROR))] *)
Definition accepted (i2c_result : Z) : bool :=
  bool_decide (Z.land i2c_result (I2C_I2C_MSTR_NO_ERROR I2C) = 0).

Definition FRAM_get_adr : M Z := get_current_adr.

(** The local [adr_ary] is not initialised in the source; its three bytes
    are written by [FRAM_prep_adr] before they are read, so any initial
    content does. *)
Definition FRAM_set_adr (fuel : nat) (adr : Z) (wait : FRAM_wait_t) : M Z :=
  let '(e, adr_ary) := FRAM_prep_adr adr [0; 0; 0] in
  if bool_decide (e <> FRAM_NO_ERROR) then ret FRAM_PARAMTER_ERROR
  else
    let* slave := defined (load adr_ary FRAM_ADR_BYTES) in
    let* i2c_result := MasterWriteBuf_call slave adr_ary FRAM_ADR_BYTES in
    run (match wait with
         | FRAM_WAIT => busy_wait fuel (I2C_I2C_MSTAT_WR_CMPLT I2C)
         | FRAM_DONT_WAIT => ret tt
         end) then
    run (if accepted i2c_result then set_current_adr adr else ret tt) then
    ret i2c_result.

(** [buffer] is [None] for [NULL]; the driver never looks into it on the
    read path, the component fills it. *)
Definition FRAM_read_current_adr (fuel : nat) (buffer : option (list Z))
    (count : Z) (wait : FRAM_wait_t) : M Z :=
  if bool_decide (buffer = None) || bool_decide (count = 0)
  then ret FRAM_PARAMTER_ERROR
  else
    let* i2c_result := MasterReadBuf_call FRAM_SLAVE_ADR count in
    run (if accepted i2c_result then
           let* cur := get_current_adr in
           set_current_adr (uint32_t (cur + count) mod FRAM_ADR_MAX)
         else ret tt) then
    run (match wait with
         | FRAM_WAIT => busy_wait fuel (I2C_I2C_MSTAT_RD_CMPLT I2C)
         | FRAM_DONT_WAIT => ret tt
         end) then
    ret i2c_result.

Definition FRAM_read_from_adr (fuel : nat) (adr : Z)
    (buffer : option (list Z)) (count : Z) : M Z :=
  let* cur := get_current_adr in
  if bool_decide (cur <> adr) then
    let* i2c_result := FRAM_set_adr fuel adr FRAM_WAIT in
    if bool_decide (i2c_result <> I2C_I2C_MSTR_NO_ERROR I2C)
    then ret i2c_result
    else FRAM_read_current_adr fuel buffer count FRAM_WAIT
  else FRAM_read_current_adr fuel buffer count FRAM_WAIT.

(** [for(j=0;i<FRAM_ADR_BYTES+count;i++,j++) data_out[i]=buffer[j];]
    with [uint8_t i,j]: the bound is a [uint32_t], the counters wrap at
    256.  Yields [data_out] when the loop is left. *)
Fixpoint copy_payload (fuel : nat) (i j : Z) (count : Z)
    (buffer data_out : list Z) : M (list Z) :=
  if bool_decide (i < uint32_t (FRAM_ADR_BYTES + count)) then
    match fuel with
    | O => fun _ => Spinning
    | S fuel =>
        let* b := defined (load buffer j) in
        let* data_out := defined (store data_out i b) in
        copy_payload fuel (uint8_t (i + 1)) (uint8_t (j + 1)) count
          buffer data_out
    end
  else ret data_out.

(** [for(i=0;i<FRAM_ADR_BYTES;i++) data_out[i]=adr_ary[i];] *)
Fixpoint copy_address (fuel : nat) (i : Z) (adr_ary data_out : list Z)
    : M (Z * list Z) :=
  if bool_decide (i < FRAM_ADR_BYTES) then
    match fuel with
    | O => fun _ => Spinning
    | S fuel =>
        let* b := defined (load adr_ary i) in
        let* data_out := defined (store data_out i b) in
        copy_address fuel (uint8_t (i + 1)) adr_ary data_out
    end
  else ret (i, data_out).

(** [malloc] is taken to succeed and to hand out a fresh object of the
    requested size, [(count+FRAM_ADR_BYTES)*sizeof(uint8_t)] as a 32-bit
    [size_t]. *)
Definition malloc (size : Z) : list Z := replicate (Z.to_nat size) 0.

Definition FRAM_write_to_adr (fuel : nat) (adr : Z)
    (buffer : option (list Z)) (count : Z) : M Z :=
  match buffer with
  | None => ret FRAM_PARAMTER_ERROR
  | Some buf =>
      if bool_decide (count = 0) then ret FRAM_PARAMTER_ERROR
      else
        let '(e, adr_ary) := FRAM_prep_adr adr [0; 0; 0] in
        if bool_decide (e <> FRAM_NO_ERROR) then ret FRAM_PARAMTER_ERROR
        else
          let data_out := malloc (uint32_t (uint32_t (count + FRAM_ADR_BYTES) * 1)) in
          let* r := copy_address fuel 0 adr_ary data_out in
          let '(i, data_out) := r in
          let* data_out := copy_payload fuel i 0 count buf data_out in
          let* slave := defined (load adr_ary FRAM_ADR_BYTES) in
          let* i2c_result := MasterWriteBuf_call slave data_out
                               (uint32_t (FRAM_ADR_BYTES + count)) in
          run busy_wait fuel (I2C_I2C_MSTAT_WR_CMPLT I2C) then
          run (if accepted i2c_result
               then set_current_adr (uint32_t (adr + count)) else ret tt) then
          ret i2c_result
  end.

(** The driver before any call: [FRAM_current_adr=FRAM_INVALID_ADR]. *)
Definition initial (s : I2C_state I2C) : driver :=
  {| FRAM_current_adr := FRAM_INVALID_ADR; i2c := s; calls := [] |}.

(** The completion flag [flag] shows within [K] polls, whatever the
    component is doing. *)
Definition completes (K : nat) (flag : Z) : Prop :=
  forall d, exists d', busy_wait K flag d = Done tt d'.

(** The cache holds the sentinel or an address the codec accepts. *)
Definition cache_ok (d : driver) : Prop :=
  FRAM_current_adr d = FRAM_INVALID_ADR \/
  0 <= FRAM_current_adr d <= FRAM_ADR_MAX.

(** *** Vocabulary of the statements below *)

(** The bus-address byte with the page-select term as a bit test. *)
Definition page_byte (adr : Z) : Z :=
  Z.lor FRAM_SLAVE_ADR (2 * Z.b2z (Z.testbit adr 16)).

(** The transfer [FRAM_set_adr] issues for [adr], and its status. *)
Definition set_adr_call (adr : Z) : I2C_call :=
  MasterWriteBuf (page_byte adr)
    [Z.land (Z.shiftr adr 8) 0xFF; Z.land adr 0xFF] 2
    (I2C_I2C_MODE_COMPLETE_XFER I2C).
Definition set_adr_status (adr : Z) (d : driver) : Z :=
  (I2C_I2CMasterWriteBuf I2C (page_byte adr)
     [Z.land (Z.shiftr adr 8) 0xFF; Z.land adr 0xFF] 2
     (I2C_I2C_MODE_COMPLETE_XFER I2C) (i2c d)).1.

(** The transfer [FRAM_read_current_adr] issues, and its status. *)
Definition read_call (count : Z) : I2C_call :=
  MasterReadBuf FRAM_SLAVE_ADR count (I2C_I2C_MODE_COMPLETE_XFER I2C).
Definition read_status (count : Z) (d : driver) : Z :=
  (I2C_I2CMasterReadBuf I2C FRAM_SLAVE_ADR count
     (I2C_I2C_MODE_COMPLETE_XFER I2C) (i2c d)).1.

(** The combined transfer of address prefix and payload, and its status. *)
Definition write_call (adr : Z) (buf : list Z) (count : Z) : I2C_call :=
  MasterWriteBuf (page_byte adr)
    (Z.land (Z.shiftr adr 8) 0xFF :: Z.land adr 0xFF
       :: take (Z.to_nat count) buf)
    (2 + count) (I2C_I2C_MODE_COMPLETE_XFER I2C).
Definition write_status (adr : Z) (buf : list Z) (count : Z) (d : driver) : Z :=
  (I2C_I2CMasterWriteBuf I2C (page_byte adr)
     (Z.land (Z.shiftr adr 8) 0xFF :: Z.land adr 0xFF
        :: take (Z.to_nat count) buf)
     (2 + count) (I2C_I2C_MODE_COMPLETE_XFER I2C) (i2c d)).1.

End Driver.

Arguments FRAM_current_adr {I2C} d.
Arguments i2c {I2C} d.
Arguments calls {I2C} d.
Arguments cache_ok {I2C} d.
Arguments set_adr_status {I2C} adr d.
Arguments read_status {I2C} count d.
Arguments write_status {I2C} adr buf count d.
Arguments Done {I2C A} a d.
Arguments Undefined {I2C A}.
Arguments Spinning {I2C A}.

(** ** A component to run the driver against

    Every transfer returns the status word [st]; the component counts the
    polls of its status register since the last transfer and shows both
    completion flags from the [lat]-th poll on.  [no_error] is the value of
    the no-error constant. *)
Definition bench (no_error st : Z) (lat : nat) : I2C_component := {|
  I2C_state := nat;
  I2C_I2C_MSTR_NO_ERROR := no_error;
  I2C_I2C_MSTAT_WR_CMPLT := 2;
  I2C_I2C_MSTAT_RD_CMPLT := 1;
  I2C_I2C_MODE_COMPLETE_XFER := 0;
  I2C_I2CMasterWriteBuf := fun _ _ _ _ _ => (st, O);
  I2C_I2CMasterReadBuf := fun _ _ _ _ => (st, O);
  I2C_I2CMasterStatus := fun n => (if (n <? lat)%nat then 0 else 3, S n)
|}.

(** ** The slave-address accessor and a component that never completes *)

(** [uint8_t FRAM_get_slave_adr(void){return FRAM_SLAVE_ADR;}] reads no
    state. *)
Definition FRAM_get_slave_adr : Z := uint8_t FRAM_SLAVE_ADR.

(** The status register of the component never shows [flag]. *)
Definition never_shows (I2C : I2C_component) (flag : Z) : Prop :=
  forall s, Z.land (I2C_I2CMasterStatus I2C s).1 flag = 0.

(** A component whose transfers return [st] and whose status register
    stays 0: no transfer is ever reported complete. *)
Definition stuck (no_error st : Z) : I2C_component := {|
  I2C_state := unit;
  I2C_I2C_MSTR_NO_ERROR := no_error;
  I2C_I2C_MSTAT_WR_CMPLT := 2;
  I2C_I2C_MSTAT_RD_CMPLT := 1;
  I2C_I2C_MODE_COMPLETE_XFER := 0;
  I2C_I2CMasterWriteBuf := fun _ _ _ _ s => (st, s);
  I2C_I2CMasterReadBuf := fun _ _ _ s => (st, s);
  I2C_I2CMasterStatus := fun s => (0, s)
|}.

(** * The address codec *)

Example prep_0x12345 : FRAM_prep_adr 0x12345 [0; 0; 0] = (0, [0x23; 0x45; 0x52]).
Proof. reflexivity. Qed.
Example prep_0x20000 : FRAM_prep_adr 0x20000 [7; 8; 9] = (0x200, [7; 8; 9]).
Proof. reflexivity. Qed.

Lemma uint8_t_land (x : Z) : uint8_t x = Z.land x 0xFF.
Proof. unfold uint8_t. change 0xFF with (Z.ones 8). by rewrite Z.land_ones. Qed.

Lemma FRAM_prep_adr_ok (adr : Z) (ary : list Z) :
  adr <= FRAM_ADR_MAX ->
  FRAM_prep_adr adr ary =
    (FRAM_NO_ERROR,
     <[2%nat := uint8_t (Z.lor FRAM_SLAVE_ADR
                           (Z.shiftr (Z.land adr FRAM_PS_MASK) FRAM_PS_SHIFT))]>
       (<[1%nat := uint8_t adr]>
          (<[0%nat := uint8_t (Z.shiftr adr FRAM_MSB_SHIFT)]> ary))).
Proof.
  intros H. unfold FRAM_prep_adr.
  rewrite bool_decide_eq_false_2 by lia. reflexivity.
Qed.

Lemma FRAM_prep_adr_reject (adr : Z) (ary : list Z) :
  adr > FRAM_ADR_MAX -> FRAM_prep_adr adr ary = (FRAM_PARAMTER_ERROR, ary).
Proof.
  intros H. unfold FRAM_prep_adr. by rewrite bool_decide_eq_true_2.
Qed.

(** The page-select term of the bus-address byte: bit 16 of the address,
    moved down by [FRAM_PS_SHIFT] = 15 places, lands on bit 1. *)
Lemma page_select_term (adr : Z) :
  0 <= adr <= FRAM_ADR_MAX ->
  Z.shiftr (Z.land adr FRAM_PS_MASK) FRAM_PS_SHIFT
  = 2 * Z.b2z (Z.testbit adr 16).
Proof.
  intros [H0 H1]. unfold FRAM_PS_MASK, FRAM_PS_SHIFT.
  rewrite Z.shiftr_land.
  replace (Z.testbit adr 16) with (Z.testbit (Z.shiftr adr 15) 1)
    by (rewrite Z.shiftr_spec by lia; reflexivity).
  rewrite Z.shiftr_div_pow2 by lia.
  assert (Hq : 0 <= adr / 2 ^ 15 < 4).
  { unfold FRAM_ADR_MAX in H1. split.
    - apply Z.div_pos; lia.
    - apply Z.div_lt_upper_bound; lia. }
  change (Z.shiftr 65536 15) with 2.
  assert (Hc : adr / 2 ^ 15 = 0 \/ adr / 2 ^ 15 = 1 \/
               adr / 2 ^ 15 = 2 \/ adr / 2 ^ 15 = 3) by lia.
  destruct Hc as [-> | [-> | [-> | ->]]]; reflexivity.
Qed.

Lemma bus_address_byte_value (adr : Z) (a0 a1 a2 : Z) :
  0 <= adr <= FRAM_ADR_MAX ->
  (FRAM_prep_adr adr [a0; a1; a2]).2 !! 2%nat
  = Some (Z.lor FRAM_SLAVE_ADR (2 * Z.b2z (Z.testbit adr 16))).
Proof.
  intros H. rewrite FRAM_prep_adr_ok by lia. cbn [snd].
  rewrite page_select_term by done.
  destruct (Z.testbit adr 16); reflexivity.
Qed.

Lemma FRAM_prep_adr_wire (adr a0 a1 a2 : Z) :
  0 <= adr <= FRAM_ADR_MAX ->
  FRAM_prep_adr adr [a0; a1; a2] =
    (FRAM_NO_ERROR,
     [Z.land (Z.shiftr adr 8) 0xFF; Z.land adr 0xFF; page_byte adr]).
Proof.
  intros H. rewrite FRAM_prep_adr_ok by lia.
  rewrite page_select_term by done. rewrite !uint8_t_land.
  unfold page_byte. destruct (Z.testbit adr 16); reflexivity.
Qed.

(** C8: for every address up to [FRAM_ADR_MAX] the codec succeeds, its
    first byte is [adr >> 8] cut to 8 bits and its second byte the bottom
    8 bits of [adr] (together the big-endian 16-bit truncation of [adr]);
    for every address above [FRAM_ADR_MAX] it yields [FRAM_PARAMTER_ERROR]
    and leaves the array as it was. *)
Theorem FRAM_prep_adr_high_low (adr a0 a1 a2 : Z) :
  0 <= adr < 2 ^ 32 ->
  (adr <= FRAM_ADR_MAX ->
   exists hi lo bus,
     FRAM_prep_adr adr [a0; a1; a2] = (FRAM_NO_ERROR, [hi; lo; bus]) /\
     hi = Z.land (Z.shiftr adr 8) 0xFF /\
     lo = Z.land adr 0xFF /\
     256 * hi + lo = adr mod 2 ^ 16) /\
  (adr > FRAM_ADR_MAX ->
   FRAM_prep_adr adr [a0; a1; a2] = (FRAM_PARAMTER_ERROR, [a0; a1; a2])).
Proof.
  intros Hr. split; intros H.
  - rewrite FRAM_prep_adr_ok by done. cbn [list_insert].
    eexists _, _, _. split; [reflexivity|].
    rewrite <- !uint8_t_land. split; [reflexivity|]. split; [reflexivity|].
    unfold uint8_t, FRAM_MSB_SHIFT. rewrite Z.shiftr_div_pow2 by lia.
    change (2 ^ 16) with (2 ^ 8 * 2 ^ 8).
    rewrite Z.rem_mul_r by lia. lia.
  - by apply FRAM_prep_adr_reject.
Qed.

Lemma FRAM_prep_adr_high_low_witness :
  exists hi lo bus,
    FRAM_prep_adr 0x12345 [0; 0; 0] = (FRAM_NO_ERROR, [hi; lo; bus]) /\
    hi = Z.land (Z.shiftr 0x12345 8) 0xFF /\
    lo = Z.land 0x12345 0xFF /\
    256 * hi + lo = 0x12345 mod 2 ^ 16.
Proof.
  apply (FRAM_prep_adr_high_low 0x12345 0 0 0); [lia | unfold FRAM_ADR_MAX; lia].
Defined.

(** C2: at the address 0x10000 (bit 16 set) the bus-address byte is 0x52,
    [FRAM_SLAVE_ADR] with bit 1 set, and not [FRAM_SLAVE_ADR | 1] = 0x51:
    the page-select bit does not reach the least-significant bit. *)
Theorem bus_address_byte_0x10000 :
  FRAM_prep_adr 0x10000 [0; 0; 0] = (FRAM_NO_ERROR, [0x00; 0x00; 0x52]) /\
  Z.testbit 0x10000 16 = true /\
  0x52 <> Z.lor FRAM_SLAVE_ADR 1.
Proof. split; [reflexivity|]. split; [reflexivity|]. discriminate. Qed.

(** C7 as stated fails: the bus-address bytes of 0x8000 and of 0x0000 are
    the same byte, so they do not differ in the page-select bit. *)
Lemma bus_address_byte_0x8000_same :
  ~ ((FRAM_prep_adr 0x8000 [0; 0; 0]).2 !! 2%nat
     <> (FRAM_prep_adr 0x0000 [0; 0; 0]).2 !! 2%nat).
Proof. intros H. apply H. reflexivity. Qed.

(** C7, amended: the codec gives 0x8000 the bus-address byte it gives
    0x0000, namely [FRAM_SLAVE_ADR] (bit 16 of 0x8000 is clear); the codec
    applied to 0x10000 gives a bus-address byte that differs from the one of
    0x0000. *)
Theorem bus_address_byte_page_scenario :
  (FRAM_prep_adr 0x8000 [0; 0; 0]).2 !! 2%nat = Some FRAM_SLAVE_ADR /\
  (FRAM_prep_adr 0x0000 [0; 0; 0]).2 !! 2%nat = Some FRAM_SLAVE_ADR /\
  Z.testbit 0x8000 16 = false /\
  (FRAM_prep_adr 0x10000 [0; 0; 0]).2 !! 2%nat
    <> (FRAM_prep_adr 0x0000 [0; 0; 0]).2 !! 2%nat.
Proof. repeat split; try reflexivity. discriminate. Qed.

(** * The transaction sequencing *)

Section DriverFacts.
Context (I2C : I2C_component).
Implicit Types d : driver I2C.

(** ** Steps of the monad *)

Lemma bind_done {A B} (m : M I2C A) (k : A -> M I2C B) d a d1 :
  m d = Done a d1 -> bind I2C m k d = k a d1.
Proof. unfold bind. by intros ->. Qed.

Lemma MasterWriteBuf_call_done (slave : Z) (data : list Z) (cnt : Z) d :
  let mode := I2C_I2C_MODE_COMPLETE_XFER I2C in
  let bytes := take (Z.to_nat cnt) data in
  let r := I2C_I2CMasterWriteBuf I2C slave bytes cnt mode (i2c d) in
  MasterWriteBuf_call I2C slave data cnt d =
    Done r.1 {| FRAM_current_adr := FRAM_current_adr d; i2c := r.2;
                calls := calls d ++ [MasterWriteBuf slave bytes cnt mode] |}.
Proof.
  intros mode bytes r. unfold MasterWriteBuf_call. fold mode bytes r.
  by destruct r.
Qed.

Lemma MasterReadBuf_call_done (slave cnt : Z) d :
  let mode := I2C_I2C_MODE_COMPLETE_XFER I2C in
  let r := I2C_I2CMasterReadBuf I2C slave cnt mode (i2c d) in
  MasterReadBuf_call I2C slave cnt d =
    Done r.1 {| FRAM_current_adr := FRAM_current_adr d; i2c := r.2;
                calls := calls d ++ [MasterReadBuf slave cnt mode] |}.
Proof.
  intros mode r. unfold MasterReadBuf_call. fold mode r. by destruct r.
Qed.

Lemma busy_wait_frame (fuel : nat) (flag : Z) d d' (u : unit) :
  busy_wait I2C fuel flag d = Done u d' ->
  FRAM_current_adr d' = FRAM_current_adr d /\
  exists n, calls d' = calls d ++ replicate n MasterStatus.
Proof.
  revert d. induction fuel as [|fuel IH]; intros d; cbn; [discriminate|].
  unfold bind, MasterStatus_call.
  destruct (I2C_I2CMasterStatus I2C (i2c d)) as [st s].
  case_bool_decide.
  - intros H'. apply IH in H' as [Hc [n Hn]]. cbn in *. split; [done|].
    exists (S n). rewrite Hn, <- app_assoc. reflexivity.
  - intros [= <- <-]. cbn. split; [done|]. exists 1%nat. reflexivity.
Qed.

Lemma busy_wait_mono (k k' : nat) (flag : Z) d d' (u : unit) :
  busy_wait I2C k flag d = Done u d' -> (k <= k')%nat ->
  busy_wait I2C k' flag d = Done u d'.
Proof.
  revert k' d. induction k as [|k IH]; intros k' d; cbn; [discriminate|].
  intros Hd Hk. destruct k' as [|k']; [lia|]. cbn. revert Hd.
  unfold bind. destruct (MasterStatus_call I2C d) as [st d1| |]; try done.
  case_bool_decide; [|done]. intros Hd. apply IH; [done|lia].
Qed.

Lemma completes_at (K fuel : nat) (flag : Z) d :
  completes I2C K flag -> (K <= fuel)%nat ->
  exists d' n, busy_wait I2C fuel flag d = Done tt d' /\
    FRAM_current_adr d' = FRAM_current_adr d /\
    calls d' = calls d ++ replicate n MasterStatus.
Proof.
  intros Hc Hk. destruct (Hc d) as [d' Hd'].
  apply busy_wait_mono with (k' := fuel) in Hd'; [|done].
  destruct (busy_wait_frame _ _ _ _ _ Hd') as [? [n ?]]. eauto.
Qed.

Lemma wait_at (K fuel : nat) (wait : FRAM_wait_t) (flag : Z) d :
  (wait = FRAM_WAIT -> completes I2C K flag) -> (K <= fuel)%nat ->
  exists d' n,
    match wait with
    | FRAM_WAIT => busy_wait I2C fuel flag
    | FRAM_DONT_WAIT => ret I2C tt
    end d = Done tt d' /\
    FRAM_current_adr d' = FRAM_current_adr d /\
    calls d' = calls d ++ replicate n MasterStatus.
Proof.
  intros Hc Hk. destruct wait.
  - apply completes_at with K; auto.
  - exists d, 0%nat. cbn. by rewrite app_nil_r.
Qed.

(** ** The two primitives

    With a component that completes, each returns the status of its one
    transfer; the cache and the calls made are as the source has them. *)

Lemma FRAM_set_adr_valid (K fuel : nat) (adr : Z) (wait : FRAM_wait_t) d :
  (wait = FRAM_WAIT -> completes I2C K (I2C_I2C_MSTAT_WR_CMPLT I2C)) ->
  (K <= fuel)%nat ->
  0 <= adr <= FRAM_ADR_MAX ->
  exists d' n,
    FRAM_set_adr I2C fuel adr wait d = Done (set_adr_status adr d) d' /\
    FRAM_current_adr d' =
      (if accepted I2C (set_adr_status adr d) then adr else FRAM_current_adr d) /\
    calls d' = calls d ++ set_adr_call I2C adr :: replicate n MasterStatus.
Proof.
  intros Hc Hk Ha. unfold FRAM_set_adr, set_adr_status, set_adr_call.
  rewrite FRAM_prep_adr_wire by lia.
  rewrite bool_decide_eq_false_2 by (intros Hne; by apply Hne).
  change (load _ FRAM_ADR_BYTES) with (Some (page_byte adr)).
  unfold defined at 1. erewrite bind_done by reflexivity.
  erewrite bind_done by apply MasterWriteBuf_call_done.
  change (take _ _) with [Z.land (Z.shiftr adr 8) 255; Z.land adr 255].
  change FRAM_ADR_BYTES with 2.
  set (r := I2C_I2CMasterWriteBuf _ _ _ _ _ _).
  match goal with |- context [bind _ _ _ ?d0] =>
    destruct (wait_at K fuel wait (I2C_I2C_MSTAT_WR_CMPLT I2C) d0 Hc Hk)
      as (d1 & n & Hw1 & Hcur & Hcalls) end.
  erewrite bind_done by apply Hw1. cbn in Hcur, Hcalls.
  unfold bind, ret, set_current_adr. destruct (accepted I2C r.1).
  - eexists _, n. split; [reflexivity|]. cbn. split; [done|].
    rewrite Hcalls, <- app_assoc. reflexivity.
  - exists d1, n. split; [reflexivity|]. split; [done|].
    rewrite Hcalls, <- app_assoc. reflexivity.
Qed.

Lemma FRAM_read_current_adr_valid (K fuel : nat) (buf : list Z) (count : Z)
    (wait : FRAM_wait_t) d :
  (wait = FRAM_WAIT -> completes I2C K (I2C_I2C_MSTAT_RD_CMPLT I2C)) ->
  (K <= fuel)%nat ->
  count <> 0 ->
  exists d' n,
    FRAM_read_current_adr I2C fuel (Some buf) count wait d
      = Done (read_status count d) d' /\
    FRAM_current_adr d' =
      (if accepted I2C (read_status count d)
       then ((FRAM_current_adr d + count) mod 2 ^ 32) mod FRAM_ADR_MAX
       else FRAM_current_adr d) /\
    calls d' = calls d ++
      read_call I2C count :: replicate n MasterStatus.
Proof.
  intros Hc Hk Hn. unfold FRAM_read_current_adr, read_status, read_call.
  rewrite bool_decide_eq_false_2 by done.
  rewrite bool_decide_eq_false_2 by done. cbn [orb].
  erewrite bind_done by apply MasterReadBuf_call_done.
  set (r := I2C_I2CMasterReadBuf _ _ _ _ _).
  destruct (accepted I2C r.1).
  - erewrite bind_done by (unfold bind, get_current_adr, set_current_adr; reflexivity).
    cbn [FRAM_current_adr i2c calls].
    match goal with |- context [bind _ _ _ ?d0] =>
      destruct (wait_at K fuel wait (I2C_I2C_MSTAT_RD_CMPLT I2C) d0 Hc Hk)
        as (d1 & n & Hw1 & Hcur & Hcalls) end.
    erewrite bind_done by apply Hw1. cbn in Hcur, Hcalls.
    exists d1, n. split; [reflexivity|]. split; [done|].
    rewrite Hcalls, <- app_assoc. reflexivity.
  - erewrite bind_done by reflexivity.
    match goal with |- context [bind _ _ _ ?d0] =>
      destruct (wait_at K fuel wait (I2C_I2C_MSTAT_RD_CMPLT I2C) d0 Hc Hk)
        as (d1 & n & Hw1 & Hcur & Hcalls) end.
    erewrite bind_done by apply Hw1. cbn in Hcur, Hcalls.
    exists d1, n. split; [reflexivity|]. split; [done|].
    rewrite Hcalls, <- app_assoc. reflexivity.
Qed.

(** ** The write path *)

Lemma load_Some (a : list Z) (i : Z) :
  0 <= i < Z.of_nat (length a) -> exists b, load a i = Some b /\ a !! Z.to_nat i = Some b.
Proof.
  intros H. unfold load. rewrite bool_decide_eq_true_2 by lia.
  destruct (lookup_lt_is_Some_2 a (Z.to_nat i)) as [b Hb]; [lia|]. eauto.
Qed.

Lemma store_Some (a : list Z) (i v : Z) :
  0 <= i < Z.of_nat (length a) -> store a i v = Some (<[Z.to_nat i := v]> a).
Proof. intros H. unfold store. by rewrite bool_decide_eq_true_2. Qed.

(** The payload loop when the bound fits the 8-bit counter: from [j] on it
    appends the rest of the first [count] bytes of the buffer. *)
Lemma copy_payload_fits (count : Z) (buf : list Z) (k : nat) :
  forall (fuel : nat) (j : Z) (out : list Z) d,
    1 <= count <= 253 ->
    Z.of_nat (length buf) >= count ->
    Z.of_nat (length out) = 2 + count ->
    0 <= j -> j + Z.of_nat k = count ->
    (k <= fuel)%nat ->
    copy_payload I2C fuel (2 + j) j count buf out d =
      Done (take (Z.to_nat (2 + j)) out ++ take k (drop (Z.to_nat j) buf)) d.
Proof.
  induction k as [|k IH]; intros fuel j out d Hc Hb Ho Hj Hk Hf.
  - assert (j = count) as -> by lia.
    destruct fuel; cbn [copy_payload];
      (rewrite bool_decide_eq_false_2
         by (unfold uint32_t, FRAM_ADR_BYTES; rewrite Z.mod_small; lia));
      unfold ret; rewrite take_0, app_nil_r, take_ge by lia; done.
  - destruct fuel as [|fuel]; [lia|]. cbn [copy_payload].
    rewrite bool_decide_eq_true_2
      by (unfold uint32_t, FRAM_ADR_BYTES; rewrite Z.mod_small; lia).
    destruct (load_Some buf j) as (b & -> & Hb'); [lia|].
    unfold defined at 1. erewrite bind_done by reflexivity.
    rewrite store_Some by lia.
    unfold defined at 1. erewrite bind_done by reflexivity.
    replace (uint8_t (2 + j + 1)) with (2 + (j + 1))
      by (unfold uint8_t; rewrite Z.mod_small; lia).
    replace (uint8_t (j + 1)) with (j + 1)
      by (unfold uint8_t; rewrite Z.mod_small; lia).
    rewrite IH; [|done|done|rewrite length_insert; lia|lia|lia|lia].
    f_equal.
    replace (Z.to_nat (2 + (j + 1))) with (S (Z.to_nat (2 + j))) by lia.
    erewrite take_S_r by (apply list_lookup_insert_eq; lia).
    rewrite take_insert_ge by lia.
    rewrite <- app_assoc. f_equal. cbn [app].
    replace (Z.to_nat (j + 1)) with (S (Z.to_nat j)) by lia.
    rewrite (drop_S _ _ _ Hb'). reflexivity.
Qed.

Lemma copy_address_two (fuel : nat) (hi lo pb : Z) (out : list Z) d :
  (2 <= fuel)%nat ->
  copy_address I2C fuel 0 [hi; lo; pb] (0 :: 0 :: out) d
  = Done (2, hi :: lo :: out) d.
Proof.
  intros Hf. destruct fuel as [|[|fuel]]; [lia|lia|].
  cbn [copy_address].
  rewrite bool_decide_eq_true_2 by (unfold FRAM_ADR_BYTES; lia).
  change (load [hi; lo; pb] 0) with (Some hi).
  unfold defined at 1. erewrite bind_done by reflexivity.
  rewrite store_Some by (cbn [length]; lia).
  unfold defined at 1. erewrite bind_done by reflexivity.
  change (uint8_t (0 + 1)) with 1.
  rewrite bool_decide_eq_true_2 by (unfold FRAM_ADR_BYTES; lia).
  change (load [hi; lo; pb] 1) with (Some lo).
  unfold defined at 1. erewrite bind_done by reflexivity.
  rewrite store_Some by (rewrite length_insert; cbn [length]; lia).
  unfold defined at 1. erewrite bind_done by reflexivity.
  change (uint8_t (1 + 1)) with 2.
  destruct fuel; cbn [copy_address];
    rewrite bool_decide_eq_false_2 by (unfold FRAM_ADR_BYTES; lia);
    reflexivity.
Qed.

(** Up to 253 bytes the write path issues one combined transfer: the two
    address bytes followed by the first [count] bytes of the buffer. *)
Lemma FRAM_write_to_adr_fits (K fuel : nat) (adr : Z) (buf : list Z)
    (count : Z) d :
  completes I2C K (I2C_I2C_MSTAT_WR_CMPLT I2C) ->
  (K <= fuel)%nat -> (253 <= fuel)%nat ->
  0 <= adr <= FRAM_ADR_MAX ->
  1 <= count <= 253 ->
  count <= Z.of_nat (length buf) ->
  exists d' n,
    FRAM_write_to_adr I2C fuel adr (Some buf) count d
      = Done (write_status adr buf count d) d' /\
    FRAM_current_adr d' =
      (if accepted I2C (write_status adr buf count d)
       then (adr + count) mod 2 ^ 32 else FRAM_current_adr d) /\
    calls d' = calls d ++ write_call I2C adr buf count :: replicate n MasterStatus.
Proof.
  intros Hc Hk Hf Ha Hn Hb. unfold FRAM_write_to_adr, write_status, write_call.
  rewrite bool_decide_eq_false_2 by lia.
  rewrite FRAM_prep_adr_wire by lia.
  rewrite bool_decide_eq_false_2 by (intros Hne; by apply Hne).
  change (load _ FRAM_ADR_BYTES) with (Some (page_byte adr)).
  replace (malloc _) with (0 :: 0 :: replicate (Z.to_nat count) 0).
  2:{ unfold malloc, uint32_t, FRAM_ADR_BYTES. rewrite Z.mul_1_r.
      rewrite Z.mod_mod by lia. rewrite Z.mod_small by lia.
      replace (Z.to_nat (count + 2)) with (S (S (Z.to_nat count))) by lia.
      reflexivity. }
  erewrite bind_done by (apply copy_address_two; lia).
  cbv beta iota. erewrite bind_done.
  2:{ apply (copy_payload_fits count buf (Z.to_nat count) fuel 0);
        [lia|lia| |lia|lia|lia].
      cbn [length]. rewrite length_replicate. lia. }
  change (Z.to_nat (2 + 0)) with 2%nat. change (Z.to_nat 0) with 0%nat.
  cbn [take app]. rewrite take_0, drop_0. cbn [app].
  unfold defined at 1. erewrite bind_done by reflexivity.
  erewrite bind_done by apply MasterWriteBuf_call_done.
  replace (uint32_t (FRAM_ADR_BYTES + count)) with (2 + count)
    by (unfold uint32_t, FRAM_ADR_BYTES; rewrite Z.mod_small; lia).
  rewrite (take_ge (_ :: _ :: _))
    by (cbn [length]; rewrite length_take; lia).
  set (r := I2C_I2CMasterWriteBuf _ _ _ _ _ _).
  match goal with |- context [bind _ _ _ ?d0] =>
    destruct (completes_at K fuel (I2C_I2C_MSTAT_WR_CMPLT I2C) d0 Hc Hk)
      as (d1 & n & Hw1 & Hcur & Hcalls) end.
  erewrite bind_done by apply Hw1. cbn in Hcur, Hcalls.
  unfold bind, ret, set_current_adr. destruct (accepted I2C r.1).
  - eexists _, n. split; [reflexivity|]. cbn. split; [done|].
    rewrite Hcalls, <- app_assoc. reflexivity.
  - exists d1, n. split; [reflexivity|]. split; [done|].
    rewrite Hcalls, <- app_assoc. reflexivity.
Qed.

(** With 254 bytes or more the bound of the payload loop is at least 256,
    which the 8-bit counter never reaches: the loop is not left. *)
Lemma copy_payload_not_left (count : Z) (buf : list Z) (fuel : nat) :
  forall (i j : Z) (out : list Z) d r d',
    254 <= count <= 2 ^ 32 - 3 ->
    0 <= i < 256 ->
    copy_payload I2C fuel i j count buf out d <> Done r d'.
Proof.
  induction fuel as [|fuel IH]; intros i j out d r d' Hc Hi; cbn [copy_payload];
    rewrite bool_decide_eq_true_2
      by (unfold uint32_t, FRAM_ADR_BYTES; rewrite Z.mod_small; lia);
    [done|].
  unfold bind. destruct (defined I2C (load buf j) d) as [b d1| |]; [|done|done].
  destruct (defined I2C (store out i b) d1) as [out' d2| |]; [|done|done].
  apply IH; [done|]. unfold uint8_t. apply Z.mod_pos_bound. lia.
Qed.

Lemma FRAM_write_to_adr_not_left (fuel : nat) (adr : Z) (buf : list Z)
    (count : Z) d r d' :
  254 <= count <= 2 ^ 32 - 3 ->
  0 <= adr <= FRAM_ADR_MAX ->
  FRAM_write_to_adr I2C fuel adr (Some buf) count d <> Done r d'.
Proof.
  intros Hc Ha. unfold FRAM_write_to_adr.
  rewrite bool_decide_eq_false_2 by lia.
  rewrite FRAM_prep_adr_wire by lia.
  rewrite bool_decide_eq_false_2 by (intros Hne; by apply Hne).
  replace (malloc _) with (0 :: 0 :: replicate (Z.to_nat count) 0).
  2:{ unfold malloc, uint32_t, FRAM_ADR_BYTES. rewrite Z.mul_1_r.
      rewrite Z.mod_mod by lia. rewrite Z.mod_small by lia.
      replace (Z.to_nat (count + 2)) with (S (S (Z.to_nat count))) by lia.
      reflexivity. }
  destruct (decide (2 <= fuel)%nat) as [Hf|Hf].
  - erewrite bind_done by (apply copy_address_two; lia).
    cbv beta iota. unfold bind at 1.
    destruct (copy_payload _ _ _ _ _ _ _ _) as [o d1| |] eqn:Hl; [|done|done].
    by apply copy_payload_not_left in Hl.
  - destruct fuel as [|[|fuel]]; [done|done|lia].
Qed.

(** The same loop on objects of 256 bytes: no load or store leaves them,
    the loop just keeps running. *)
Lemma copy_payload_spins (count : Z) (buf : list Z) (fuel : nat) :
  forall (i j : Z) (out : list Z) d,
    254 <= count <= 2 ^ 32 - 3 ->
    (256 <= length buf)%nat -> (256 <= length out)%nat ->
    0 <= i < 256 -> 0 <= j < 256 ->
    copy_payload I2C fuel i j count buf out d = Spinning.
Proof.
  induction fuel as [|fuel IH]; intros i j out d Hc Hb Ho Hi Hj;
    cbn [copy_payload];
    rewrite bool_decide_eq_true_2
      by (unfold uint32_t, FRAM_ADR_BYTES; rewrite Z.mod_small; lia);
    [done|].
  destruct (load_Some buf j) as (b & -> & _); [lia|].
  unfold defined at 1. erewrite bind_done by reflexivity.
  rewrite store_Some by lia.
  unfold defined at 1. erewrite bind_done by reflexivity.
  apply IH; [done|done|rewrite length_insert; lia| |];
    unfold uint8_t; apply Z.mod_pos_bound; lia.
Qed.

(** ** Counting transfers *)

Lemma write_calls_app (l1 l2 : list I2C_call) :
  write_calls (l1 ++ l2) = write_calls l1 ++ write_calls l2.
Proof. apply filter_app. Qed.

Lemma transfer_calls_app (l1 l2 : list I2C_call) :
  transfer_calls (l1 ++ l2) = transfer_calls l1 ++ transfer_calls l2.
Proof. apply filter_app. Qed.

Lemma write_calls_polls (n : nat) : write_calls (replicate n MasterStatus) = [].
Proof. induction n as [|n IH]; [done|]. cbn. exact IH. Qed.

Lemma transfer_calls_polls (n : nat) :
  transfer_calls (replicate n MasterStatus) = [].
Proof. induction n as [|n IH]; [done|]. cbn. exact IH. Qed.

(** ** FRAM_read_from_adr *)

Lemma FRAM_set_adr_reject (fuel : nat) (adr : Z) (wait : FRAM_wait_t) d :
  adr > FRAM_ADR_MAX ->
  FRAM_set_adr I2C fuel adr wait d = Done FRAM_PARAMTER_ERROR d.
Proof.
  intros H. unfold FRAM_set_adr. rewrite FRAM_prep_adr_reject by done.
  by rewrite bool_decide_eq_true_2.
Qed.

Lemma FRAM_read_current_adr_reject (fuel : nat) (buffer : option (list Z))
    (count : Z) (wait : FRAM_wait_t) d :
  buffer = None \/ count = 0 ->
  FRAM_read_current_adr I2C fuel buffer count wait d
  = Done FRAM_PARAMTER_ERROR d.
Proof.
  intros H. unfold FRAM_read_current_adr.
  destruct H as [-> | ->].
  - by rewrite bool_decide_eq_true_2.
  - rewrite (bool_decide_eq_true_2 (0 = 0)) by done. by rewrite orb_true_r.
Qed.

Lemma FRAM_read_from_adr_hit (fuel : nat) (adr : Z)
    (buffer : option (list Z)) (count : Z) d :
  FRAM_current_adr d = adr ->
  FRAM_read_from_adr I2C fuel adr buffer count d
  = FRAM_read_current_adr I2C fuel buffer count FRAM_WAIT d.
Proof.
  intros H. unfold FRAM_read_from_adr.
  erewrite bind_done by reflexivity. by rewrite bool_decide_eq_false_2 by auto.
Qed.

Lemma FRAM_read_from_adr_miss (fuel : nat) (adr : Z)
    (buffer : option (list Z)) (count : Z) d r d1 :
  FRAM_current_adr d <> adr ->
  FRAM_set_adr I2C fuel adr FRAM_WAIT d = Done r d1 ->
  FRAM_read_from_adr I2C fuel adr buffer count d
  = if bool_decide (r <> I2C_I2C_MSTR_NO_ERROR I2C) then Done r d1
    else FRAM_read_current_adr I2C fuel buffer count FRAM_WAIT d1.
Proof.
  intros H Hs. unfold FRAM_read_from_adr.
  erewrite bind_done by reflexivity. rewrite bool_decide_eq_true_2 by done.
  erewrite bind_done by apply Hs. by case_bool_decide.
Qed.

(** An invalid address is turned down without a call into the component,
    unless the cache happens to hold that very value. *)
Lemma FRAM_read_from_adr_reject (fuel : nat) (adr : Z)
    (buffer : option (list Z)) (count : Z) d :
  adr > FRAM_ADR_MAX ->
  FRAM_current_adr d <> adr ->
  I2C_I2C_MSTR_NO_ERROR I2C <> FRAM_PARAMTER_ERROR ->
  FRAM_read_from_adr I2C fuel adr buffer count d = Done FRAM_PARAMTER_ERROR d.
Proof.
  intros Ha Hc Hne.
  rewrite (FRAM_read_from_adr_miss fuel adr buffer count d
             FRAM_PARAMTER_ERROR d Hc) by by apply FRAM_set_adr_reject.
  rewrite bool_decide_eq_true_2; [done|]. auto.
Qed.

(** C5: with a valid address, a buffer and a count of at least 1,
    [FRAM_read_from_adr] returns, and the write transfers it has issued are
    none when the cache equals the address and exactly the one set-address
    transfer when the cache holds anything else (the sentinel included). *)
Theorem FRAM_read_from_adr_set_adr_transfers (K fuel : nat) (adr : Z)
    (buf : list Z) (count : Z) d :
  completes I2C K (I2C_I2C_MSTAT_WR_CMPLT I2C) ->
  completes I2C K (I2C_I2C_MSTAT_RD_CMPLT I2C) ->
  (K <= fuel)%nat ->
  0 <= adr <= FRAM_ADR_MAX ->
  1 <= count < 2 ^ 32 ->
  exists r d',
    FRAM_read_from_adr I2C fuel adr (Some buf) count d = Done r d' /\
    write_calls (calls d') =
      write_calls (calls d) ++
      (if bool_decide (FRAM_current_adr d = adr) then []
       else [set_adr_call I2C adr]) /\
    length (write_calls (calls d')) =
      (length (write_calls (calls d)) +
       if bool_decide (FRAM_current_adr d = adr) then 0 else 1)%nat.
Proof.
  intros Hw Hr Hk Ha Hn.
  assert (Hread : forall d0, exists r d',
            FRAM_read_current_adr I2C fuel (Some buf) count FRAM_WAIT d0
              = Done r d' /\
            write_calls (calls d') = write_calls (calls d0)).
  { intros d0.
    destruct (FRAM_read_current_adr_valid K fuel buf count FRAM_WAIT d0)
      as (d' & n & He & _ & Hcalls); [auto|done|lia|].
    eexists _, d'. split; [exact He|].
    rewrite Hcalls, write_calls_app. change (read_call I2C count :: ?l)
      with ([read_call I2C count] ++ l).
    rewrite write_calls_app, write_calls_polls. cbn. by rewrite app_nil_r. }
  case_bool_decide as Hcur.
  - rewrite FRAM_read_from_adr_hit by done.
    destruct (Hread d) as (r & d' & He & Hc).
    exists r, d'. split; [done|]. rewrite Hc, app_nil_r. split; [done|lia].
  - destruct (FRAM_set_adr_valid K fuel adr FRAM_WAIT d)
      as (d1 & n & Hs & _ & Hcalls); [auto|done|done|].
    assert (Hw1 : write_calls (calls d1)
                  = write_calls (calls d) ++ [set_adr_call I2C adr]).
    { rewrite Hcalls, write_calls_app.
      change (set_adr_call I2C adr :: ?l) with ([set_adr_call I2C adr] ++ l).
      rewrite write_calls_app, write_calls_polls. cbn. done. }
    rewrite (FRAM_read_from_adr_miss fuel adr (Some buf) count d _ d1 Hcur Hs).
    case_bool_decide.
    + eexists _, d1. split; [done|]. rewrite Hw1. split; [done|].
      rewrite length_app. done.
    + destruct (Hread d1) as (r & d' & He & Hc).
      exists r, d'. split; [done|]. rewrite Hc, Hw1. split; [done|].
      rewrite length_app. done.
Qed.

(** C3: with a valid address, [FRAM_set_adr] returns the status [s] of its
    bus write; the cache is [adr] afterwards when [s] has none of the bits
    of the no-error constant, and is what it was when [s] has one. *)
Theorem FRAM_set_adr_cache (K fuel : nat) (adr : Z) (wait : FRAM_wait_t) d :
  (wait = FRAM_WAIT -> completes I2C K (I2C_I2C_MSTAT_WR_CMPLT I2C)) ->
  (K <= fuel)%nat ->
  0 <= adr <= FRAM_ADR_MAX ->
  exists s d',
    s = set_adr_status adr d /\
    FRAM_set_adr I2C fuel adr wait d = Done s d' /\
    (Z.land s (I2C_I2C_MSTR_NO_ERROR I2C) = 0 -> FRAM_current_adr d' = adr) /\
    (Z.land s (I2C_I2C_MSTR_NO_ERROR I2C) <> 0 ->
     FRAM_current_adr d' = FRAM_current_adr d).
Proof.
  intros Hc Hk Ha.
  destruct (FRAM_set_adr_valid K fuel adr wait d Hc Hk Ha)
    as (d' & n & He & Hcur & _).
  exists (set_adr_status adr d), d'. split; [done|]. split; [done|].
  revert Hcur. unfold accepted. case_bool_decide; intros ->; split; done.
Qed.

(** C10, amended: a read of [n >= 1] bytes that is accepted while the cache
    holds the sentinel leaves in the cache the 32-bit sum of sentinel and
    [n], reduced modulo [FRAM_ADR_MAX]; the sum wraps to [n - 1], so the
    cache holds [(n - 1) mod 0x1FFFF], an address in range and not the
    sentinel. *)
Theorem FRAM_read_current_adr_from_sentinel (K fuel : nat) (buf : list Z)
    (n : Z) (wait : FRAM_wait_t) d :
  (wait = FRAM_WAIT -> completes I2C K (I2C_I2C_MSTAT_RD_CMPLT I2C)) ->
  (K <= fuel)%nat ->
  1 <= n < 2 ^ 32 ->
  FRAM_current_adr d = FRAM_INVALID_ADR ->
  Z.land (read_status n d) (I2C_I2C_MSTR_NO_ERROR I2C) = 0 ->
  exists d',
    FRAM_read_current_adr I2C fuel (Some buf) n wait d
      = Done (read_status n d) d' /\
    FRAM_current_adr d' = ((0xFFFFFFFF + n) mod 2 ^ 32) mod 0x1FFFF /\
    FRAM_current_adr d' = (n - 1) mod 0x1FFFF /\
    0 <= FRAM_current_adr d' <= FRAM_ADR_MAX /\
    FRAM_current_adr d' <> FRAM_INVALID_ADR.
Proof.
  intros Hc Hk Hn Hcur Hacc.
  destruct (FRAM_read_current_adr_valid K fuel buf n wait d)
    as (d' & m & He & Hcur' & _); [done|done|lia|].
  exists d'. split; [done|].
  unfold accepted in Hcur'. rewrite bool_decide_eq_true_2 in Hcur' by done.
  rewrite Hcur in Hcur'. unfold FRAM_INVALID_ADR, FRAM_ADR_MAX in *.
  assert (Hwrap : (4294967295 + n) mod 2 ^ 32 = n - 1).
  { replace (4294967295 + n) with (n - 1 + 1 * 2 ^ 32) by lia.
    rewrite Z.mod_add by lia. apply Z.mod_small. lia. }
  rewrite Hcur'. split; [done|]. rewrite Hwrap. split; [done|].
  pose proof (Z.mod_pos_bound (n - 1) 131071). lia.
Qed.

(** ** The cache invariant on the paths that keep it *)

Lemma set_adr_keeps_cache_ok (K fuel : nat) (adr : Z) (wait : FRAM_wait_t) d :
  (wait = FRAM_WAIT -> completes I2C K (I2C_I2C_MSTAT_WR_CMPLT I2C)) ->
  (K <= fuel)%nat -> 0 <= adr < 2 ^ 32 -> cache_ok d ->
  exists r d', FRAM_set_adr I2C fuel adr wait d = Done r d' /\ cache_ok d'.
Proof.
  intros Hc Hk Ha Hok.
  destruct (decide (adr <= FRAM_ADR_MAX)) as [Hv|Hv].
  - destruct (FRAM_set_adr_valid K fuel adr wait d Hc Hk)
      as (d' & n & He & Hcur & _); [lia|].
    eexists _, d'. split; [done|]. unfold cache_ok. rewrite Hcur.
    destruct (accepted _ _); [right; lia|done].
  - exists FRAM_PARAMTER_ERROR, d. split; [|done].
    apply FRAM_set_adr_reject. lia.
Qed.

Lemma read_current_adr_keeps_cache_ok (K fuel : nat)
    (buffer : option (list Z)) (count : Z) (wait : FRAM_wait_t) d :
  (wait = FRAM_WAIT -> completes I2C K (I2C_I2C_MSTAT_RD_CMPLT I2C)) ->
  (K <= fuel)%nat -> cache_ok d ->
  exists r d',
    FRAM_read_current_adr I2C fuel buffer count wait d = Done r d' /\
    cache_ok d'.
Proof.
  intros Hc Hk Hok.
  destruct buffer as [buf|]; [destruct (decide (count = 0)) as [Hz|Hz]|].
  - exists FRAM_PARAMTER_ERROR, d. split; [|done].
    apply FRAM_read_current_adr_reject. by right.
  - destruct (FRAM_read_current_adr_valid K fuel buf count wait d Hc Hk Hz)
      as (d' & n & He & Hcur & _).
    eexists _, d'. split; [done|]. unfold cache_ok. rewrite Hcur.
    destruct (accepted _ _); [right|done].
    pose proof (Z.mod_pos_bound ((FRAM_current_adr d + count) mod 2 ^ 32)
                  FRAM_ADR_MAX).
    unfold FRAM_ADR_MAX in *. lia.
  - exists FRAM_PARAMTER_ERROR, d. split; [|done].
    apply FRAM_read_current_adr_reject. by left.
Qed.

Lemma read_from_adr_keeps_cache_ok (K fuel : nat) (adr : Z)
    (buffer : option (list Z)) (count : Z) d :
  completes I2C K (I2C_I2C_MSTAT_WR_CMPLT I2C) ->
  completes I2C K (I2C_I2C_MSTAT_RD_CMPLT I2C) ->
  (K <= fuel)%nat -> 0 <= adr < 2 ^ 32 -> cache_ok d ->
  exists r d',
    FRAM_read_from_adr I2C fuel adr buffer count d = Done r d' /\
    cache_ok d'.
Proof.
  intros Hw Hr Hk Ha Hok.
  destruct (decide (FRAM_current_adr d = adr)) as [Hcur|Hcur].
  - rewrite FRAM_read_from_adr_hit by done.
    apply read_current_adr_keeps_cache_ok with K; auto.
  - destruct (set_adr_keeps_cache_ok K fuel adr FRAM_WAIT d)
      as (r & d1 & Hs & Hok1); [auto|done|done|done|].
    rewrite (FRAM_read_from_adr_miss fuel adr buffer count d r d1 Hcur Hs).
    case_bool_decide; [by eauto|].
    apply read_current_adr_keeps_cache_ok with K; auto.
Qed.

(** ** The write path beyond 253 bytes *)

(** C9: with a valid address, a buffer of 256 bytes and a count of 254 the
    call does not return, however many iterations it is given, so the
    combined transfer of 2 + 254 bytes is never issued: the 8-bit loop
    counter cannot reach the bound 256. *)
Theorem FRAM_write_to_adr_254_spins (fuel : nat) d :
  FRAM_write_to_adr I2C fuel 0 (Some (replicate 256 0)) 254 d = Spinning.
Proof.
  unfold FRAM_write_to_adr.
  rewrite bool_decide_eq_false_2 by lia.
  rewrite FRAM_prep_adr_wire by (unfold FRAM_ADR_MAX; lia).
  rewrite bool_decide_eq_false_2 by (intros Hne; by apply Hne).
  change (malloc _) with (0 :: 0 :: replicate 254 0).
  destruct (decide (2 <= fuel)%nat) as [Hf|Hf].
  - erewrite bind_done by (apply copy_address_two; lia).
    cbv beta iota. unfold bind at 1. rewrite copy_payload_spins; [done|lia| | |lia|lia].
    + by rewrite length_replicate.
    + cbn [length]. rewrite length_replicate. lia.
  - destruct fuel as [|[|fuel]]; [done|done|lia].
Qed.
End DriverFacts.

(** * Runs against the bench component *)

Lemma bench_polls (no_error st : Z) (lat : nat) (flag : Z) (k : nat) :
  flag = 1 \/ flag = 2 ->
  forall d : driver (bench no_error st lat),
    (lat <= i2c d + k)%nat ->
    exists d', busy_wait (bench no_error st lat) (S k) flag d = Done tt d'.
Proof.
  intros Hflag. induction k as [|k IH]; intros d Hd.
  - cbn [busy_wait]. unfold bind, MasterStatus_call.
    cbn [bench I2C_I2CMasterStatus].
    replace (i2c d <? lat)%nat with false
      by (symmetry; apply Nat.ltb_ge; lia).
    rewrite bool_decide_eq_false_2; [by eexists|].
    destruct Hflag as [-> | ->]; discriminate.
  - cbn [busy_wait]. unfold bind at 1, MasterStatus_call.
    cbn [bench I2C_I2CMasterStatus].
    destruct (i2c d <? lat)%nat eqn:Hlt.
    + rewrite bool_decide_eq_true_2 by done. apply IH. cbn. lia.
    + rewrite bool_decide_eq_false_2; [by eexists|].
      destruct Hflag as [-> | ->]; discriminate.
Qed.

Lemma bench_completes (no_error st : Z) (lat : nat) (flag : Z) :
  flag = 1 \/ flag = 2 ->
  completes (bench no_error st lat) (S lat) flag.
Proof. intros Hflag d. apply bench_polls; [done|lia]. Qed.

Lemma FRAM_set_adr_cache_witness :
  exists s d',
    s = set_adr_status 0x12345 (initial (bench 1 0 2) 0%nat) /\
    FRAM_set_adr (bench 1 0 2) 3 0x12345 FRAM_WAIT (initial (bench 1 0 2) 0%nat)
      = Done s d' /\
    (Z.land s (I2C_I2C_MSTR_NO_ERROR (bench 1 0 2)) = 0 ->
     FRAM_current_adr d' = 0x12345) /\
    (Z.land s (I2C_I2C_MSTR_NO_ERROR (bench 1 0 2)) <> 0 ->
     FRAM_current_adr d' = FRAM_current_adr (initial (bench 1 0 2) 0%nat)).
Proof.
  apply (FRAM_set_adr_cache (bench 1 0 2) 3 3 0x12345 FRAM_WAIT
           (initial (bench 1 0 2) 0%nat)).
  - intros _. apply bench_completes. right. reflexivity.
  - lia.
  - unfold FRAM_ADR_MAX. lia.
Defined.

Example FRAM_set_adr_accepted :
  FRAM_set_adr (bench 1 0 2) 3 0x12345 FRAM_WAIT (initial (bench 1 0 2) 0%nat)
  = Done 0 (Build_driver (bench 1 0 2) 0x12345 3%nat
              [MasterWriteBuf 0x52 [0x23; 0x45] 2 0;
               MasterStatus; MasterStatus; MasterStatus]).
Proof. reflexivity. Qed.

Example FRAM_set_adr_not_accepted :
  FRAM_set_adr (bench 1 1 2) 3 0x12345 FRAM_WAIT (initial (bench 1 1 2) 0%nat)
  = Done 1 (Build_driver (bench 1 1 2) FRAM_INVALID_ADR 3%nat
              [MasterWriteBuf 0x52 [0x23; 0x45] 2 0;
               MasterStatus; MasterStatus; MasterStatus]).
Proof. reflexivity. Qed.

Example FRAM_set_adr_still_busy :
  FRAM_set_adr (bench 1 0 2) 2 0x12345 FRAM_WAIT (initial (bench 1 0 2) 0%nat)
  = Spinning.
Proof. reflexivity. Qed.

Lemma FRAM_read_from_adr_set_adr_transfers_witness :
  exists r d',
    FRAM_read_from_adr (bench 0 0 1) 2 0x100 (Some [0; 0]) 2
      (initial (bench 0 0 1) 0%nat) = Done r d' /\
    write_calls (calls d') =
      write_calls (calls (initial (bench 0 0 1) 0%nat)) ++
      (if bool_decide (FRAM_current_adr (initial (bench 0 0 1) 0%nat) = 0x100)
       then [] else [set_adr_call (bench 0 0 1) 0x100]) /\
    length (write_calls (calls d')) =
      (length (write_calls (calls (initial (bench 0 0 1) 0%nat))) +
       if bool_decide (FRAM_current_adr (initial (bench 0 0 1) 0%nat) = 0x100%Z)
       then 0 else 1)%nat.
Proof.
  apply (FRAM_read_from_adr_set_adr_transfers (bench 0 0 1) 2 2 0x100 [0; 0] 2
           (initial (bench 0 0 1) 0%nat)).
  - apply bench_completes. right. reflexivity.
  - apply bench_completes. left. reflexivity.
  - lia.
  - unfold FRAM_ADR_MAX. lia.
  - lia.
Defined.

Example FRAM_read_from_adr_miss_then_hit :
  exists d1 d2,
    FRAM_read_from_adr (bench 0 0 0) 1 0x100 (Some [0; 0]) 2
      (initial (bench 0 0 0) 0%nat) = Done 0 d1 /\
    calls d1 = [MasterWriteBuf 0x50 [0x01; 0x00] 2 0; MasterStatus;
                MasterReadBuf 0x50 2 0; MasterStatus] /\
    FRAM_current_adr d1 = 0x102 /\
    FRAM_read_from_adr (bench 0 0 0) 1 0x102 (Some [0; 0]) 2 d1 = Done 0 d2 /\
    calls d2 = calls d1 ++ [MasterReadBuf 0x50 2 0; MasterStatus].
Proof. eexists _, _. repeat split. Qed.

Lemma FRAM_read_current_adr_from_sentinel_witness :
  exists d',
    FRAM_read_current_adr (bench 1 0 0) 1 (Some [0; 0; 0]) 3 FRAM_WAIT
      (initial (bench 1 0 0) 0%nat)
      = Done (read_status 3 (initial (bench 1 0 0) 0%nat)) d' /\
    FRAM_current_adr d' = ((0xFFFFFFFF + 3) mod 2 ^ 32) mod 0x1FFFF /\
    FRAM_current_adr d' = (3 - 1) mod 0x1FFFF /\
    0 <= FRAM_current_adr d' <= FRAM_ADR_MAX /\
    FRAM_current_adr d' <> FRAM_INVALID_ADR.
Proof.
  apply (FRAM_read_current_adr_from_sentinel (bench 1 0 0) 1 1 [0; 0; 0] 3
           FRAM_WAIT (initial (bench 1 0 0) 0%nat)).
  - intros _. apply bench_completes. left. reflexivity.
  - lia.
  - lia.
  - reflexivity.
  - reflexivity.
Defined.

(** C10 as stated fails: from the sentinel, an accepted read of one byte
    leaves 0 in the cache, while (0xFFFFFFFF + 1) mod 0x1FFFF is 32768. *)
Lemma FRAM_read_current_adr_sentinel_plus_1 :
  exists d',
    FRAM_read_current_adr (bench 1 0 0) 1 (Some [0]) 1 FRAM_WAIT
      (initial (bench 1 0 0) 0%nat) = Done 0 d' /\
    Z.land 0 (I2C_I2C_MSTR_NO_ERROR (bench 1 0 0)) = 0 /\
    FRAM_current_adr d' = 0 /\
    (0xFFFFFFFF + 1) mod 0x1FFFF = 32768 /\
    FRAM_current_adr d' <> (0xFFFFFFFF + 1) mod 0x1FFFF.
Proof. eexists. repeat split. discriminate. Qed.

(** C1: with the cache at 0x1FFFE, an accepted read of one byte leaves 0 in
    the cache, where (0x1FFFE + 1) mod (FRAM_ADR_MAX + 1) is 0x1FFFF: the
    cache wraps modulo [FRAM_ADR_MAX], one address early. *)
Theorem FRAM_read_current_adr_wraps_early :
  exists d1 d2,
    FRAM_set_adr (bench 1 0 0) 1 0x1FFFE FRAM_WAIT (initial (bench 1 0 0) 0%nat)
      = Done 0 d1 /\
    FRAM_current_adr d1 = 0x1FFFE /\
    FRAM_read_current_adr (bench 1 0 0) 1 (Some [0]) 1 FRAM_WAIT d1
      = Done 0 d2 /\
    Z.land 0 (I2C_I2C_MSTR_NO_ERROR (bench 1 0 0)) = 0 /\
    FRAM_current_adr d2 = 0 /\
    (0x1FFFE + 1) mod (FRAM_ADR_MAX + 1) = 0x1FFFF.
Proof. eexists _, _. repeat split. Qed.

(** C4: from the initial state, an accepted write of one byte to
    [FRAM_ADR_MAX] leaves 0x20000 in the cache, which is neither the
    sentinel nor an address up to [FRAM_ADR_MAX]. *)
Theorem FRAM_write_to_adr_leaves_range :
  cache_ok (initial (bench 1 0 0) 0%nat) /\
  exists d1,
    FRAM_write_to_adr (bench 1 0 0) 2 0x1FFFF (Some [0xAA]) 1
      (initial (bench 1 0 0) 0%nat) = Done 0 d1 /\
    calls d1 = [MasterWriteBuf 0x52 [0xFF; 0xFF; 0xAA] 3 0; MasterStatus] /\
    FRAM_current_adr d1 = 0x20000 /\
    ~ cache_ok d1.
Proof.
  split; [by left|]. eexists. split; [vm_compute; reflexivity|].
  split; [reflexivity|]. split; [reflexivity|].
  intros [Hs | Hr]; [discriminate Hs | cbn in Hr; unfold FRAM_ADR_MAX in Hr; lia].
Qed.

(** C6: once a write has left 0x20000 in the cache,
    [FRAM_read_from_adr (0x20000, buffer, 4)] finds the cache equal to the
    address, issues a bus read of 4 bytes and returns its status, not
    [FRAM_PARAMTER_ERROR]. *)
Theorem FRAM_read_from_adr_0x20000_reads :
  exists d1 d2,
    FRAM_write_to_adr (bench 1 0 0) 2 0x1FFFF (Some [0xAA]) 1
      (initial (bench 1 0 0) 0%nat) = Done 0 d1 /\
    FRAM_current_adr d1 = 0x20000 /\
    FRAM_read_from_adr (bench 1 0 0) 2 0x20000 (Some [0; 0; 0; 0]) 4 d1
      = Done 0 d2 /\
    0 <> FRAM_PARAMTER_ERROR /\
    transfer_calls (calls d2)
      = transfer_calls (calls d1) ++ [MasterReadBuf FRAM_SLAVE_ADR 4 0].
Proof.
  eexists _, _. split; [vm_compute; reflexivity|]. split; [reflexivity|].
  split; [vm_compute; reflexivity|]. split; [discriminate|]. reflexivity.
Qed.

(** * Further properties of the codec *)

Lemma address_from_parts (adr : Z) :
  0 <= adr <= FRAM_ADR_MAX ->
  adr = 65536 * Z.b2z (Z.testbit adr 16)
        + 256 * Z.land (Z.shiftr adr 8) 0xFF + Z.land adr 0xFF.
Proof.
  intros [H0 H1]. unfold FRAM_ADR_MAX in H1.
  rewrite Z.testbit_spec' by lia.
  change 0xFF with (Z.ones 8). rewrite !Z.land_ones by lia.
  rewrite Z.shiftr_div_pow2 by lia.
  change (2 ^ 16) with 65536. change (2 ^ 8) with 256.
  assert (Hq : adr / 65536 = adr / 256 / 256)
    by (rewrite Z.div_div by lia; reflexivity).
  assert (Hs : 0 <= adr / 65536 < 2).
  { split; [apply Z.div_pos; lia | apply Z.div_lt_upper_bound; lia]. }
  rewrite (Z.mod_small (adr / 65536)) by lia.
  pose proof (Z.div_mod adr 256 ltac:(lia)).
  pose proof (Z.div_mod (adr / 256) 256 ltac:(lia)).
  lia.
Qed.

Lemma page_byte_bit (a b : Z) :
  page_byte a = page_byte b -> Z.testbit a 16 = Z.testbit b 16.
Proof.
  unfold page_byte.
  destruct (Z.testbit a 16), (Z.testbit b 16); cbn; intros H;
    first [reflexivity | discriminate H].
Qed.

(** X1: two different addresses up to [FRAM_ADR_MAX] never get the same
    three wire bytes, whatever the arrays held before: at one of the three
    positions the bytes differ. *)
Theorem FRAM_prep_adr_distinct (adr1 adr2 a0 a1 a2 b0 b1 b2 : Z) :
  0 <= adr1 <= FRAM_ADR_MAX ->
  0 <= adr2 <= FRAM_ADR_MAX ->
  adr1 <> adr2 ->
  exists (i : nat) (x y : Z),
    (FRAM_prep_adr adr1 [a0; a1; a2]).2 !! i = Some x /\
    (FRAM_prep_adr adr2 [b0; b1; b2]).2 !! i = Some y /\
    x <> y.
Proof.
  intros H1 H2 Hne.
  rewrite !FRAM_prep_adr_wire by done. cbn [snd].
  destruct (decide (Z.land (Z.shiftr adr1 8) 255 = Z.land (Z.shiftr adr2 8) 255))
    as [Hhi|Hhi]; [|by eexists 0%nat, _, _].
  destruct (decide (Z.land adr1 255 = Z.land adr2 255))
    as [Hlo|Hlo]; [|by eexists 1%nat, _, _].
  destruct (decide (page_byte adr1 = page_byte adr2))
    as [Hpb|Hpb]; [|by eexists 2%nat, _, _].
  exfalso. apply Hne. apply page_byte_bit in Hpb.
  rewrite (address_from_parts adr1), (address_from_parts adr2) by done.
  by rewrite Hhi, Hlo, Hpb.
Qed.

Lemma FRAM_prep_adr_distinct_witness :
  exists (i : nat) (x y : Z),
    (FRAM_prep_adr 0x0100 [0; 0; 0]).2 !! i = Some x /\
    (FRAM_prep_adr 0x10100 [0; 0; 0]).2 !! i = Some y /\
    x <> y.
Proof.
  apply (FRAM_prep_adr_distinct 0x0100 0x10100 0 0 0 0 0 0);
    unfold FRAM_ADR_MAX; lia.
Defined.

(** X2: for a 16-bit address the codec is the plain big-endian split, with
    nothing cut off, and the bus-address byte is the slave address
    [FRAM_get_slave_adr] reports. *)
Theorem FRAM_prep_adr_lower_page (adr a0 a1 a2 : Z) :
  0 <= adr <= 0xFFFF ->
  FRAM_prep_adr adr [a0; a1; a2]
  = (FRAM_NO_ERROR, [adr / 256; adr mod 256; FRAM_get_slave_adr]).
Proof.
  intros H. rewrite FRAM_prep_adr_wire by (unfold FRAM_ADR_MAX; lia).
  change 0xFF with (Z.ones 8). rewrite !Z.land_ones by lia.
  rewrite Z.shiftr_div_pow2 by lia. change (2 ^ 8) with 256.
  assert (Hq : 0 <= adr / 256 < 256).
  { split; [apply Z.div_pos; lia | apply Z.div_lt_upper_bound; lia]. }
  rewrite (Z.mod_small (adr / 256)) by lia.
  assert (Hb : Z.testbit adr 16 = false).
  { destruct (decide (adr = 0)) as [->|Hz]; [reflexivity|].
    apply Z.bits_above_log2; [lia|].
    apply Z.log2_lt_pow2; lia. }
  unfold page_byte. rewrite Hb. reflexivity.
Qed.

Lemma FRAM_prep_adr_lower_page_witness :
  FRAM_prep_adr 0xABCD [0; 0; 0]
  = (FRAM_NO_ERROR, [0xABCD / 256; 0xABCD mod 256; FRAM_get_slave_adr]).
Proof. apply (FRAM_prep_adr_lower_page 0xABCD 0 0 0). lia. Defined.

(** * Further properties of the transaction sequencing *)

Section MoreDriverFacts.
Context (I2C : I2C_component).
Implicit Types d : driver I2C.

(** ** The primitives as equations *)

Lemma FRAM_set_adr_steps (fuel : nat) (adr : Z) (wait : FRAM_wait_t) d :
  0 <= adr <= FRAM_ADR_MAX ->
  FRAM_set_adr I2C fuel adr wait d =
    bind I2C
      (match wait with
       | FRAM_WAIT => busy_wait I2C fuel (I2C_I2C_MSTAT_WR_CMPLT I2C)
       | FRAM_DONT_WAIT => ret I2C tt
       end)
      (fun _ =>
         bind I2C
           (if accepted I2C (set_adr_status adr d)
            then set_current_adr I2C adr else ret I2C tt)
           (fun _ => ret I2C (set_adr_status adr d)))
      {| FRAM_current_adr := FRAM_current_adr d;
         i2c := (I2C_I2CMasterWriteBuf I2C (page_byte adr)
                   [Z.land (Z.shiftr adr 8) 0xFF; Z.land adr 0xFF] 2
                   (I2C_I2C_MODE_COMPLETE_XFER I2C) (i2c d)).2;
         calls := calls d ++ [set_adr_call I2C adr] |}.
Proof.
  intros Ha. unfold FRAM_set_adr, set_adr_status, set_adr_call.
  rewrite FRAM_prep_adr_wire by lia.
  rewrite bool_decide_eq_false_2 by (intros Hne; by apply Hne).
  change (load _ FRAM_ADR_BYTES) with (Some (page_byte adr)).
  unfold defined at 1. erewrite bind_done by reflexivity.
  erewrite bind_done by apply MasterWriteBuf_call_done.
  reflexivity.
Qed.

Lemma FRAM_read_current_adr_steps (fuel : nat) (buf : list Z) (count : Z)
    (wait : FRAM_wait_t) d :
  count <> 0 ->
  FRAM_read_current_adr I2C fuel (Some buf) count wait d =
    bind I2C
      (match wait with
       | FRAM_WAIT => busy_wait I2C fuel (I2C_I2C_MSTAT_RD_CMPLT I2C)
       | FRAM_DONT_WAIT => ret I2C tt
       end)
      (fun _ => ret I2C (read_status count d))
      {| FRAM_current_adr :=
           if accepted I2C (read_status count d)
           then ((FRAM_current_adr d + count) mod 2 ^ 32) mod FRAM_ADR_MAX
           else FRAM_current_adr d;
         i2c := (I2C_I2CMasterReadBuf I2C FRAM_SLAVE_ADR count
                   (I2C_I2C_MODE_COMPLETE_XFER I2C) (i2c d)).2;
         calls := calls d ++ [read_call I2C count] |}.
Proof.
  intros Hn. unfold FRAM_read_current_adr, read_status, read_call.
  rewrite bool_decide_eq_false_2 by done.
  rewrite bool_decide_eq_false_2 by done. cbn [orb].
  erewrite bind_done by apply MasterReadBuf_call_done.
  set (r := I2C_I2CMasterReadBuf _ _ _ _ _).
  destruct (accepted I2C r.1).
  - erewrite bind_done
      by (unfold bind, get_current_adr, set_current_adr; reflexivity).
    reflexivity.
  - erewrite bind_done by reflexivity. reflexivity.
Qed.

Lemma busy_wait_polls (fuel : nat) (flag : Z) d d' (u : unit) :
  busy_wait I2C fuel flag d = Done u d' ->
  exists n, calls d' = calls d ++ replicate (S n) MasterStatus.
Proof.
  revert d. induction fuel as [|fuel IH]; intros d; cbn; [discriminate|].
  unfold bind, MasterStatus_call.
  destruct (I2C_I2CMasterStatus I2C (i2c d)) as [st s].
  case_bool_decide.
  - intros H'. apply IH in H' as [n Hn]. cbn in Hn.
    exists (S n). rewrite Hn, <- app_assoc. reflexivity.
  - intros [= <- <-]. cbn. exists 0%nat. reflexivity.
Qed.

Lemma busy_wait_never (fuel : nat) (flag : Z) d :
  never_shows I2C flag -> busy_wait I2C fuel flag d = Spinning.
Proof.
  intros Hnever. revert d. induction fuel as [|fuel IH]; intros d; [done|].
  cbn [busy_wait]. unfold bind at 1, MasterStatus_call.
  specialize (Hnever (i2c d)).
  destruct (I2C_I2CMasterStatus I2C (i2c d)) as [st s]. cbn [fst] in Hnever.
  rewrite bool_decide_eq_true_2 by done. apply IH.
Qed.

Lemma accepted_all (r : Z) :
  I2C_I2C_MSTR_NO_ERROR I2C = 0 -> accepted I2C r = true.
Proof.
  intros Hz. unfold accepted. rewrite Hz, Z.land_0_r.
  by rewrite bool_decide_eq_true_2.
Qed.

(** ** FRAM_read_from_adr, case by case *)

Lemma read_from_adr_on_hit (K fuel : nat) (adr : Z) (buf : list Z)
    (count : Z) d :
  completes I2C K (I2C_I2C_MSTAT_RD_CMPLT I2C) ->
  (K <= fuel)%nat -> count <> 0 ->
  FRAM_current_adr d = adr ->
  exists d' n,
    FRAM_read_from_adr I2C fuel adr (Some buf) count d
      = Done (read_status count d) d' /\
    FRAM_current_adr d' =
      (if accepted I2C (read_status count d)
       then ((adr + count) mod 2 ^ 32) mod FRAM_ADR_MAX else adr) /\
    calls d' = calls d ++ read_call I2C count :: replicate n MasterStatus.
Proof.
  intros Hr Hk Hn Hcur. rewrite FRAM_read_from_adr_hit by done.
  destruct (FRAM_read_current_adr_valid I2C K fuel buf count FRAM_WAIT d)
    as (d' & n & He & Hc & Hcalls); [auto|done|done|].
  exists d', n. rewrite Hcur in Hc. done.
Qed.

Lemma read_from_adr_on_miss (K fuel : nat) (adr : Z)
    (buffer : option (list Z)) (count : Z) d :
  completes I2C K (I2C_I2C_MSTAT_WR_CMPLT I2C) ->
  (K <= fuel)%nat -> 0 <= adr <= FRAM_ADR_MAX ->
  FRAM_current_adr d <> adr ->
  exists d1 n,
    FRAM_set_adr I2C fuel adr FRAM_WAIT d = Done (set_adr_status adr d) d1 /\
    FRAM_current_adr d1 =
      (if accepted I2C (set_adr_status adr d) then adr else FRAM_current_adr d) /\
    calls d1 = calls d ++ set_adr_call I2C adr :: replicate n MasterStatus /\
    FRAM_read_from_adr I2C fuel adr buffer count d =
      if bool_decide (set_adr_status adr d <> I2C_I2C_MSTR_NO_ERROR I2C)
      then Done (set_adr_status adr d) d1
      else FRAM_read_current_adr I2C fuel buffer count FRAM_WAIT d1.
Proof.
  intros Hw Hk Ha Hcur.
  destruct (FRAM_set_adr_valid I2C K fuel adr FRAM_WAIT d)
    as (d1 & n & Hs & Hc & Hcalls); [auto|done|done|].
  exists d1, n. split; [done|]. split; [done|]. split; [done|].
  by apply FRAM_read_from_adr_miss.
Qed.

(** ** Parameter errors *)


(** X4: with a null buffer or a count of 0, [FRAM_read_current_adr] and
    [FRAM_write_to_adr] return [FRAM_PARAMTER_ERROR] without a call into the
    component and without touching the cache, whatever the address; so does
    [FRAM_read_from_adr] when the cache equals the address. *)
Theorem missing_buffer_or_zero_count (fuel : nat) (adr : Z)
    (buffer : option (list Z)) (count : Z) (wait : FRAM_wait_t) d :
  buffer = None \/ count = 0 ->
  FRAM_read_current_adr I2C fuel buffer count wait d
    = Done FRAM_PARAMTER_ERROR d /\
  FRAM_write_to_adr I2C fuel adr buffer count d
    = Done FRAM_PARAMTER_ERROR d /\
  (FRAM_current_adr d = adr ->
   FRAM_read_from_adr I2C fuel adr buffer count d
     = Done FRAM_PARAMTER_ERROR d).
Proof.
  intros Hb. split; [by apply FRAM_read_current_adr_reject|]. split.
  - unfold FRAM_write_to_adr. destruct buffer as [buf|]; [|done].
    destruct Hb as [Hb|Hb]; [done|]. by rewrite bool_decide_eq_true_2.
  - intros Hcur. rewrite FRAM_read_from_adr_hit by done.
    by apply FRAM_read_current_adr_reject.
Qed.

(** X5: on a cache miss [FRAM_read_from_adr] looks at the buffer and the
    count only after the address has been set: with a null buffer or a
    count of 0, and a set-address write that reports the no-error constant,
    it returns [FRAM_PARAMTER_ERROR] after having issued that write. *)
Theorem FRAM_read_from_adr_checks_late (K fuel : nat) (adr : Z)
    (buffer : option (list Z)) (count : Z) d :
  completes I2C K (I2C_I2C_MSTAT_WR_CMPLT I2C) ->
  (K <= fuel)%nat ->
  0 <= adr <= FRAM_ADR_MAX ->
  FRAM_current_adr d <> adr ->
  buffer = None \/ count = 0 ->
  set_adr_status adr d = I2C_I2C_MSTR_NO_ERROR I2C ->
  exists d' n,
    FRAM_read_from_adr I2C fuel adr buffer count d
      = Done FRAM_PARAMTER_ERROR d' /\
    calls d' = calls d ++ set_adr_call I2C adr :: replicate (S n) MasterStatus /\
    FRAM_current_adr d' =
      (if accepted I2C (set_adr_status adr d) then adr else FRAM_current_adr d).
Proof.
  intros Hw Hk Ha Hcur Hb Hs.
  destruct (read_from_adr_on_miss K fuel adr buffer count d Hw Hk Ha Hcur)
    as (d1 & n & Hset & Hc & _ & He).
  rewrite He, bool_decide_eq_false_2 by (intros Hne; by apply Hne).
  rewrite FRAM_read_current_adr_reject by done.
  rewrite FRAM_set_adr_steps in Hset by done.
  unfold bind at 1 in Hset.
  destruct (busy_wait I2C fuel _ _) as [u d0| |] eqn:Hbw; [|done|done].
  destruct (busy_wait_polls _ _ _ _ _ Hbw) as [m Hm]. cbn in Hm.
  exists d1, m. split; [done|]. split; [|done].
  revert Hset. unfold bind, ret, set_current_adr.
  destruct (accepted I2C _); intros [= <-]; cbn;
    rewrite Hm, <- app_assoc; reflexivity.
Qed.

(** X6: on a cache miss, when the set-address write reports anything but
    the no-error constant, [FRAM_read_from_adr] returns that status and
    issues no read; the cache is set to the address all the same when the
    status has none of the bits of the constant. *)
Theorem FRAM_read_from_adr_short_circuit (K fuel : nat) (adr : Z)
    (buffer : option (list Z)) (count : Z) d :
  completes I2C K (I2C_I2C_MSTAT_WR_CMPLT I2C) ->
  (K <= fuel)%nat ->
  0 <= adr <= FRAM_ADR_MAX ->
  FRAM_current_adr d <> adr ->
  set_adr_status adr d <> I2C_I2C_MSTR_NO_ERROR I2C ->
  exists d',
    FRAM_read_from_adr I2C fuel adr buffer count d
      = Done (set_adr_status adr d) d' /\
    transfer_calls (calls d')
      = transfer_calls (calls d) ++ [set_adr_call I2C adr] /\
    FRAM_current_adr d' =
      (if accepted I2C (set_adr_status adr d) then adr else FRAM_current_adr d).
Proof.
  intros Hw Hk Ha Hcur Hs.
  destruct (read_from_adr_on_miss K fuel adr buffer count d Hw Hk Ha Hcur)
    as (d1 & n & _ & Hc & Hcalls & He).
  rewrite He, bool_decide_eq_true_2 by done.
  exists d1. split; [done|]. split; [|done].
  rewrite Hcalls, transfer_calls_app.
  change (set_adr_call I2C adr :: ?l) with ([set_adr_call I2C adr] ++ l).
  rewrite transfer_calls_app, transfer_calls_polls. by rewrite app_nil_r.
Qed.

(** X7: on a cache miss with a set-address write that reports the no-error
    constant, [FRAM_read_from_adr] makes, in this order, the set-address
    write, its status polls, the read of [count] bytes from
    [FRAM_SLAVE_ADR] and the polls of the read; it returns the status of
    the read. *)
Theorem FRAM_read_from_adr_miss_trace (K fuel : nat) (adr : Z)
    (buf : list Z) (count : Z) d :
  completes I2C K (I2C_I2C_MSTAT_WR_CMPLT I2C) ->
  completes I2C K (I2C_I2C_MSTAT_RD_CMPLT I2C) ->
  (K <= fuel)%nat ->
  0 <= adr <= FRAM_ADR_MAX ->
  count <> 0 ->
  FRAM_current_adr d <> adr ->
  set_adr_status adr d = I2C_I2C_MSTR_NO_ERROR I2C ->
  exists d1 d' n1 n2,
    FRAM_set_adr I2C fuel adr FRAM_WAIT d = Done (set_adr_status adr d) d1 /\
    FRAM_read_from_adr I2C fuel adr (Some buf) count d
      = Done (read_status count d1) d' /\
    calls d' =
      calls d ++ set_adr_call I2C adr :: replicate n1 MasterStatus
              ++ read_call I2C count :: replicate n2 MasterStatus.
Proof.
  intros Hw Hr Hk Ha Hn Hcur Hs.
  destruct (read_from_adr_on_miss K fuel adr (Some buf) count d Hw Hk Ha Hcur)
    as (d1 & n1 & Hset & _ & Hcalls & He).
  rewrite He, bool_decide_eq_false_2 by (intros Hne; by apply Hne).
  destruct (FRAM_read_current_adr_valid I2C K fuel buf count FRAM_WAIT d1)
    as (d' & n2 & Hrd & _ & Hcalls'); [auto|done|done|].
  exists d1, d', n1, n2. split; [done|]. split; [done|].
  rewrite Hcalls', Hcalls, <- app_assoc. reflexivity.
Qed.

(** X8: when the cache equals the address, [FRAM_read_from_adr] never looks
    at the address again: whatever its value, also above [FRAM_ADR_MAX], the
    call issues the read and returns its status. *)
Theorem FRAM_read_from_adr_hit_unchecked (K fuel : nat) (adr : Z)
    (buf : list Z) (count : Z) d :
  completes I2C K (I2C_I2C_MSTAT_RD_CMPLT I2C) ->
  (K <= fuel)%nat ->
  count <> 0 ->
  FRAM_current_adr d = adr ->
  exists d',
    FRAM_read_from_adr I2C fuel adr (Some buf) count d
      = Done (read_status count d) d' /\
    transfer_calls (calls d')
      = transfer_calls (calls d) ++ [read_call I2C count].
Proof.
  intros Hr Hk Hn Hcur.
  destruct (read_from_adr_on_hit K fuel adr buf count d Hr Hk Hn Hcur)
    as (d' & n & He & _ & Hcalls).
  exists d'. split; [done|].
  rewrite Hcalls, transfer_calls_app.
  change (read_call I2C count :: ?l) with ([read_call I2C count] ++ l).
  rewrite transfer_calls_app, transfer_calls_polls. by rewrite app_nil_r.
Qed.

(** ** Waiting *)

(** X9: with [FRAM_DONT_WAIT] the two primitives never poll the status
    register: each makes its one transfer and returns its status, even
    when no iteration of a wait loop is allowed. *)
Theorem dont_wait_never_polls (adr : Z) (buf : list Z) (count : Z) d :
  0 <= adr <= FRAM_ADR_MAX ->
  count <> 0 ->
  (exists d',
     FRAM_set_adr I2C 0 adr FRAM_DONT_WAIT d
       = Done (set_adr_status adr d) d' /\
     calls d' = calls d ++ [set_adr_call I2C adr]) /\
  (exists d',
     FRAM_read_current_adr I2C 0 (Some buf) count FRAM_DONT_WAIT d
       = Done (read_status count d) d' /\
     calls d' = calls d ++ [read_call I2C count]).
Proof.
  intros Ha Hn. split.
  - rewrite FRAM_set_adr_steps by done.
    unfold bind, ret, set_current_adr.
    destruct (accepted I2C _); eexists; (split; [reflexivity|]); reflexivity.
  - rewrite FRAM_read_current_adr_steps by done.
    unfold bind, ret. eexists. split; reflexivity.
Qed.

(** X10: the blocking calls have no timeout: with a component whose status
    register never shows the completion flags, [FRAM_set_adr] and
    [FRAM_read_current_adr] with [FRAM_WAIT], and [FRAM_read_from_adr],
    do not return, however many polls they are given. *)
Theorem blocking_calls_never_time_out (fuel : nat) (adr : Z) (buf : list Z)
    (count : Z) d :
  never_shows I2C (I2C_I2C_MSTAT_WR_CMPLT I2C) ->
  never_shows I2C (I2C_I2C_MSTAT_RD_CMPLT I2C) ->
  0 <= adr <= FRAM_ADR_MAX ->
  count <> 0 ->
  FRAM_set_adr I2C fuel adr FRAM_WAIT d = Spinning /\
  FRAM_read_current_adr I2C fuel (Some buf) count FRAM_WAIT d = Spinning /\
  FRAM_read_from_adr I2C fuel adr (Some buf) count d = Spinning.
Proof.
  intros Hw Hr Ha Hn.
  assert (Hset : forall d0, FRAM_set_adr I2C fuel adr FRAM_WAIT d0 = Spinning).
  { intros d0. rewrite FRAM_set_adr_steps by done.
    unfold bind at 1. by rewrite busy_wait_never. }
  assert (Hrd : forall d0,
            FRAM_read_current_adr I2C fuel (Some buf) count FRAM_WAIT d0
            = Spinning).
  { intros d0. rewrite FRAM_read_current_adr_steps by done.
    unfold bind at 1. by rewrite busy_wait_never. }
  split; [done|]. split; [done|].
  destruct (decide (FRAM_current_adr d = adr)) as [Hcur|Hcur].
  - by rewrite FRAM_read_from_adr_hit.
  - unfold FRAM_read_from_adr.
    erewrite bind_done by reflexivity. rewrite bool_decide_eq_true_2 by done.
    unfold bind. by rewrite Hset.
Qed.

(** X11: waiting changes neither the status [FRAM_set_adr] returns nor the
    cache it leaves: against the call with [FRAM_DONT_WAIT], the call with
    [FRAM_WAIT] only adds status polls, at least one, after the write. *)
Theorem waiting_only_adds_polls (K fuel : nat) (adr : Z) d :
  completes I2C K (I2C_I2C_MSTAT_WR_CMPLT I2C) ->
  (K <= fuel)%nat ->
  0 <= adr <= FRAM_ADR_MAX ->
  exists s dw dn n,
    FRAM_set_adr I2C fuel adr FRAM_WAIT d = Done s dw /\
    FRAM_set_adr I2C fuel adr FRAM_DONT_WAIT d = Done s dn /\
    FRAM_current_adr dw = FRAM_current_adr dn /\
    calls dw = calls dn ++ replicate (S n) MasterStatus.
Proof.
  intros Hw Hk Ha. rewrite !FRAM_set_adr_steps by done.
  match goal with |- context [bind _ (busy_wait _ _ _) _ ?d0] =>
    destruct (completes_at I2C K fuel (I2C_I2C_MSTAT_WR_CMPLT I2C) d0 Hw Hk)
      as (d1 & n & Hbw & Hcur & _) end.
  destruct (busy_wait_polls _ _ _ _ _ Hbw) as [m Hm].
  erewrite bind_done by apply Hbw. cbn in Hcur, Hm.
  unfold bind, ret, set_current_adr.
  destruct (accepted I2C _); eexists _, _, _, m;
    (split; [reflexivity|]); (split; [reflexivity|]); cbn; done.
Qed.

(** ** The write path *)


Lemma copy_address_short (fuel : nat) (hi lo pb : Z) (out : list Z) d :
  (length out < 2)%nat ->
  copy_address I2C fuel 0 [hi; lo; pb] out d = Undefined \/
  copy_address I2C fuel 0 [hi; lo; pb] out d = Spinning.
Proof.
  intros Hl. destruct fuel as [|fuel]; [by right|].
  cbn [copy_address].
  rewrite bool_decide_eq_true_2 by (unfold FRAM_ADR_BYTES; lia).
  change (load [hi; lo; pb] 0) with (Some hi).
  unfold defined at 1. erewrite bind_done by reflexivity.
  destruct out as [|x out]; [by left|].
  destruct out as [|y out]; [|cbn in Hl; lia].
  change (store [x] 0 hi) with (Some [hi]).
  unfold defined at 1. erewrite bind_done by reflexivity.
  change (uint8_t (0 + 1)) with 1.
  destruct fuel as [|fuel]; [by right|].
  cbn [copy_address].
  rewrite bool_decide_eq_true_2 by (unfold FRAM_ADR_BYTES; lia).
  change (load [hi; lo; pb] 1) with (Some lo).
  unfold defined at 1. erewrite bind_done by reflexivity.
  by left.
Qed.


(** ** The cache *)

(** X14: [FRAM_set_adr], [FRAM_read_current_adr] and [FRAM_read_from_adr]
    keep the cache at the sentinel or at an address up to [FRAM_ADR_MAX],
    for every 32-bit address, every buffer and every count. *)
Theorem read_side_keeps_cache_in_range (K fuel : nat) (adr : Z)
    (buffer : option (list Z)) (count : Z) (wait : FRAM_wait_t) d :
  completes I2C K (I2C_I2C_MSTAT_WR_CMPLT I2C) ->
  completes I2C K (I2C_I2C_MSTAT_RD_CMPLT I2C) ->
  (K <= fuel)%nat ->
  0 <= adr < 2 ^ 32 ->
  cache_ok d ->
  (exists r d', FRAM_set_adr I2C fuel adr wait d = Done r d' /\ cache_ok d') /\
  (exists r d',
     FRAM_read_current_adr I2C fuel buffer count wait d = Done r d' /\
     cache_ok d') /\
  (exists r d',
     FRAM_read_from_adr I2C fuel adr buffer count d = Done r d' /\
     cache_ok d').
Proof.
  intros Hw Hr Hk Ha Hok. split; [|split].
  - apply set_adr_keeps_cache_ok with K; auto.
  - apply read_current_adr_keeps_cache_ok with K; auto.
  - apply read_from_adr_keeps_cache_ok with K; auto.
Qed.


(** X16: reading the cache back after an accepted read never gives
    [FRAM_ADR_MAX] or the sentinel: [FRAM_get_adr] returns a value from 0 to
    [FRAM_ADR_MAX - 1]. *)
Theorem FRAM_get_adr_after_read (K fuel : nat) (buf : list Z) (count : Z)
    (wait : FRAM_wait_t) d :
  (wait = FRAM_WAIT -> completes I2C K (I2C_I2C_MSTAT_RD_CMPLT I2C)) ->
  (K <= fuel)%nat ->
  count <> 0 ->
  Z.land (read_status count d) (I2C_I2C_MSTR_NO_ERROR I2C) = 0 ->
  exists a d',
    bind I2C (FRAM_read_current_adr I2C fuel (Some buf) count wait)
      (fun _ => FRAM_get_adr I2C) d = Done a d' /\
    0 <= a < FRAM_ADR_MAX.
Proof.
  intros Hc Hk Hn Hacc.
  destruct (FRAM_read_current_adr_valid I2C K fuel buf count wait d Hc Hk Hn)
    as (d' & n & He & Hcur & _).
  erewrite bind_done by apply He.
  exists (FRAM_current_adr d'), d'. split; [reflexivity|].
  unfold accepted in Hcur. rewrite bool_decide_eq_true_2 in Hcur by done.
  rewrite Hcur. apply Z.mod_pos_bound. unfold FRAM_ADR_MAX. lia.
Qed.

(** X17: a set-address write that reports exactly the no-error constant
    moves the cache to the address if and only if that constant is 0: the
    cache is updated when the status has no bit in common with the
    constant. *)
Theorem no_error_status_moves_cache_iff_zero (K fuel : nat) (adr : Z)
    (wait : FRAM_wait_t) d :
  (wait = FRAM_WAIT -> completes I2C K (I2C_I2C_MSTAT_WR_CMPLT I2C)) ->
  (K <= fuel)%nat ->
  0 <= adr <= FRAM_ADR_MAX ->
  FRAM_current_adr d <> adr ->
  set_adr_status adr d = I2C_I2C_MSTR_NO_ERROR I2C ->
  exists d',
    FRAM_set_adr I2C fuel adr wait d = Done (I2C_I2C_MSTR_NO_ERROR I2C) d' /\
    (FRAM_current_adr d' = adr <-> I2C_I2C_MSTR_NO_ERROR I2C = 0).
Proof.
  intros Hc Hk Ha Hcur Hs.
  destruct (FRAM_set_adr_valid I2C K fuel adr wait d Hc Hk Ha)
    as (d' & n & He & Hcur' & _).
  rewrite Hs in He, Hcur'. exists d'. split; [done|].
  rewrite Hcur'. unfold accepted. rewrite Z.land_diag.
  case_bool_decide; split; intros; congruence.
Qed.

(** ** Calls in sequence *)

(** X18: after an accepted [FRAM_set_adr], [FRAM_read_from_adr] for the same
    address issues no write: it goes straight to the read. *)
Theorem FRAM_set_adr_then_read (K fuel : nat) (adr : Z)
    (wait : FRAM_wait_t) (buf : list Z) (count : Z) d :
  completes I2C K (I2C_I2C_MSTAT_WR_CMPLT I2C) ->
  completes I2C K (I2C_I2C_MSTAT_RD_CMPLT I2C) ->
  (K <= fuel)%nat ->
  0 <= adr <= FRAM_ADR_MAX ->
  count <> 0 ->
  Z.land (set_adr_status adr d) (I2C_I2C_MSTR_NO_ERROR I2C) = 0 ->
  exists d1 d2 n,
    FRAM_set_adr I2C fuel adr wait d = Done (set_adr_status adr d) d1 /\
    FRAM_read_from_adr I2C fuel adr (Some buf) count d1
      = Done (read_status count d1) d2 /\
    calls d2 = calls d1 ++ read_call I2C count :: replicate n MasterStatus.
Proof.
  intros Hw Hr Hk Ha Hn Hacc.
  destruct (FRAM_set_adr_valid I2C K fuel adr wait d)
    as (d1 & n1 & He & Hcur & _); [auto|done|done|].
  unfold accepted in Hcur. rewrite bool_decide_eq_true_2 in Hcur by done.
  destruct (read_from_adr_on_hit K fuel adr buf count d1 Hr Hk Hn Hcur)
    as (d2 & n & He2 & _ & Hcalls).
  by exists d1, d2, n.
Qed.

(** X19: with a no-error constant of 0, a [FRAM_read_from_adr] of [n] bytes
    at [adr] that returns 0 leaves the cache at [adr + n] as long as that is
    below [FRAM_ADR_MAX], and the next [FRAM_read_from_adr] at [adr + n]
    issues no write: consecutive reads need one set-address transfer at
    most. *)
Theorem consecutive_reads_set_address_once (K fuel : nat) (adr : Z)
    (buf : list Z) (n : Z) (buf' : list Z) (m : Z) d :
  I2C_I2C_MSTR_NO_ERROR I2C = 0 ->
  completes I2C K (I2C_I2C_MSTAT_WR_CMPLT I2C) ->
  completes I2C K (I2C_I2C_MSTAT_RD_CMPLT I2C) ->
  (K <= fuel)%nat ->
  0 <= adr -> 1 <= n -> adr + n < FRAM_ADR_MAX ->
  m <> 0 ->
  exists r d1,
    FRAM_read_from_adr I2C fuel adr (Some buf) n d = Done r d1 /\
    (r = 0 ->
     FRAM_current_adr d1 = adr + n /\
     exists r' d2 k,
       FRAM_read_from_adr I2C fuel (adr + n) (Some buf') m d1 = Done r' d2 /\
       calls d2 = calls d1 ++ read_call I2C m :: replicate k MasterStatus).
Proof.
  intros Hz Hw Hr Hk Ha Hn Hsum Hm.
  assert (Hadv : ((adr + n) mod 2 ^ 32) mod FRAM_ADR_MAX = adr + n).
  { unfold FRAM_ADR_MAX in *. rewrite (Z.mod_small (adr + n)) by lia.
    apply Z.mod_small. lia. }
  assert (Hnext : forall d1, FRAM_current_adr d1 = adr + n ->
            exists r' d2 k,
              FRAM_read_from_adr I2C fuel (adr + n) (Some buf') m d1
                = Done r' d2 /\
              calls d2 = calls d1 ++ read_call I2C m :: replicate k MasterStatus).
  { intros d1 Hc1.
    destruct (read_from_adr_on_hit K fuel (adr + n) buf' m d1 Hr Hk Hm Hc1)
      as (d2 & k & He2 & _ & Hcalls).
    by eexists _, d2, k. }
  destruct (decide (FRAM_current_adr d = adr)) as [Hcur|Hcur].
  - destruct (read_from_adr_on_hit K fuel adr buf n d Hr Hk) as
      (d1 & k & He & Hc & _); [lia|done|].
    rewrite accepted_all, Hadv in Hc by done.
    eexists _, d1. split; [done|]. intros _. split; [done|]. by apply Hnext.
  - destruct (read_from_adr_on_miss K fuel adr (Some buf) n d Hw Hk)
      as (d0 & k & _ & Hc0 & _ & He); [unfold FRAM_ADR_MAX in *; lia|done|].
    rewrite accepted_all in Hc0 by done. rewrite He. clear He.
    case_bool_decide as Hs.
    + eexists _, d0. split; [done|]. intros Hr0. rewrite Hz in Hs. by destruct Hs.
    + destruct (FRAM_read_current_adr_valid I2C K fuel buf n FRAM_WAIT d0)
        as (d1 & k1 & He1 & Hc1 & _); [auto|done|lia|].
      rewrite accepted_all, Hc0, Hadv in Hc1 by done.
      eexists _, d1. split; [done|]. intros _. split; [done|]. by apply Hnext.
Qed.


End MoreDriverFacts.

(** * The further properties at concrete inputs *)

Lemma stuck_never_shows (no_error st flag : Z) :
  never_shows (stuck no_error st) flag.
Proof. intros s. reflexivity. Qed.


Lemma missing_buffer_or_zero_count_witness :
  let I2C := bench 0 0 0 in
  let d := initial I2C 0%nat in
  FRAM_read_current_adr I2C 0 None 4 FRAM_WAIT d
    = Done FRAM_PARAMTER_ERROR d /\
  FRAM_write_to_adr I2C 0 0x100 None 4 d = Done FRAM_PARAMTER_ERROR d /\
  (FRAM_current_adr d = 0x100 ->
   FRAM_read_from_adr I2C 0 0x100 None 4 d = Done FRAM_PARAMTER_ERROR d).
Proof.
  apply (missing_buffer_or_zero_count (bench 0 0 0) 0 0x100 None 4 FRAM_WAIT
           (initial (bench 0 0 0) 0%nat)).
  left. reflexivity.
Defined.

Lemma FRAM_read_from_adr_checks_late_witness :
  let I2C := bench 0 0 1 in
  let d := initial I2C 0%nat in
  exists d' n,
    FRAM_read_from_adr I2C 2 0x100 None 4 d = Done FRAM_PARAMTER_ERROR d' /\
    calls d' = calls d ++ set_adr_call I2C 0x100 :: replicate (S n) MasterStatus /\
    FRAM_current_adr d' =
      (if accepted I2C (set_adr_status 0x100 d) then 0x100
       else FRAM_current_adr d).
Proof.
  apply (FRAM_read_from_adr_checks_late (bench 0 0 1) 2 2 0x100 None 4
           (initial (bench 0 0 1) 0%nat)).
  - apply bench_completes. right. reflexivity.
  - lia.
  - unfold FRAM_ADR_MAX. lia.
  - discriminate.
  - left. reflexivity.
  - reflexivity.
Defined.

Lemma FRAM_read_from_adr_short_circuit_witness :
  let I2C := bench 0 4 1 in
  let d := initial I2C 0%nat in
  exists d',
    FRAM_read_from_adr I2C 2 0x100 (Some [0; 0]) 2 d
      = Done (set_adr_status 0x100 d) d' /\
    transfer_calls (calls d')
      = transfer_calls (calls d) ++ [set_adr_call I2C 0x100] /\
    FRAM_current_adr d' =
      (if accepted I2C (set_adr_status 0x100 d) then 0x100
       else FRAM_current_adr d).
Proof.
  apply (FRAM_read_from_adr_short_circuit (bench 0 4 1) 2 2 0x100
           (Some [0; 0]) 2 (initial (bench 0 4 1) 0%nat)).
  - apply bench_completes. right. reflexivity.
  - lia.
  - unfold FRAM_ADR_MAX. lia.
  - discriminate.
  - discriminate.
Defined.

Lemma FRAM_read_from_adr_miss_trace_witness :
  let I2C := bench 0 0 1 in
  let d := initial I2C 0%nat in
  exists d1 d' n1 n2,
    FRAM_set_adr I2C 2 0x100 FRAM_WAIT d = Done (set_adr_status 0x100 d) d1 /\
    FRAM_read_from_adr I2C 2 0x100 (Some [0; 0]) 2 d
      = Done (read_status 2 d1) d' /\
    calls d' =
      calls d ++ set_adr_call I2C 0x100 :: replicate n1 MasterStatus
              ++ read_call I2C 2 :: replicate n2 MasterStatus.
Proof.
  apply (FRAM_read_from_adr_miss_trace (bench 0 0 1) 2 2 0x100 [0; 0] 2
           (initial (bench 0 0 1) 0%nat)).
  - apply bench_completes. right. reflexivity.
  - apply bench_completes. left. reflexivity.
  - lia.
  - unfold FRAM_ADR_MAX. lia.
  - lia.
  - discriminate.
  - reflexivity.
Defined.

Lemma FRAM_read_from_adr_hit_unchecked_witness :
  let I2C := bench 0 0 1 in
  let d := initial I2C 0%nat in
  exists d',
    FRAM_read_from_adr I2C 2 FRAM_INVALID_ADR (Some [0; 0]) 2 d
      = Done (read_status 2 d) d' /\
    transfer_calls (calls d')
      = transfer_calls (calls d) ++ [read_call I2C 2].
Proof.
  apply (FRAM_read_from_adr_hit_unchecked (bench 0 0 1) 2 2 FRAM_INVALID_ADR
           [0; 0] 2 (initial (bench 0 0 1) 0%nat)).
  - apply bench_completes. left. reflexivity.
  - lia.
  - lia.
  - reflexivity.
Defined.

Lemma dont_wait_never_polls_witness :
  let I2C := bench 1 0 5 in
  let d := initial I2C 0%nat in
  (exists d',
     FRAM_set_adr I2C 0 0x100 FRAM_DONT_WAIT d
       = Done (set_adr_status 0x100 d) d' /\
     calls d' = calls d ++ [set_adr_call I2C 0x100]) /\
  (exists d',
     FRAM_read_current_adr I2C 0 (Some [0; 0]) 2 FRAM_DONT_WAIT d
       = Done (read_status 2 d) d' /\
     calls d' = calls d ++ [read_call I2C 2]).
Proof.
  apply (dont_wait_never_polls (bench 1 0 5) 0x100 [0; 0] 2
           (initial (bench 1 0 5) 0%nat)).
  - unfold FRAM_ADR_MAX. lia.
  - lia.
Defined.

Lemma blocking_calls_never_time_out_witness :
  let I2C := stuck 0 0 in
  let d := initial I2C tt in
  FRAM_set_adr I2C 1000 0x100 FRAM_WAIT d = Spinning /\
  FRAM_read_current_adr I2C 1000 (Some [0; 0]) 2 FRAM_WAIT d = Spinning /\
  FRAM_read_from_adr I2C 1000 0x100 (Some [0; 0]) 2 d = Spinning.
Proof.
  apply (blocking_calls_never_time_out (stuck 0 0) 1000 0x100 [0; 0] 2
           (initial (stuck 0 0) tt)).
  - apply stuck_never_shows.
  - apply stuck_never_shows.
  - unfold FRAM_ADR_MAX. lia.
  - lia.
Defined.

Lemma waiting_only_adds_polls_witness :
  let I2C := bench 1 0 2 in
  let d := initial I2C 0%nat in
  exists s dw dn n,
    FRAM_set_adr I2C 3 0x100 FRAM_WAIT d = Done s dw /\
    FRAM_set_adr I2C 3 0x100 FRAM_DONT_WAIT d = Done s dn /\
    FRAM_current_adr dw = FRAM_current_adr dn /\
    calls dw = calls dn ++ replicate (S n) MasterStatus.
Proof.
  apply (waiting_only_adds_polls (bench 1 0 2) 3 3 0x100
           (initial (bench 1 0 2) 0%nat)).
  - apply bench_completes. right. reflexivity.
  - lia.
  - unfold FRAM_ADR_MAX. lia.
Defined.



Lemma read_side_keeps_cache_in_range_witness :
  let I2C := bench 1 0 1 in
  let d := initial I2C 0%nat in
  (exists r d',
     FRAM_set_adr I2C 2 0x1FFFF FRAM_WAIT d = Done r d' /\ cache_ok d') /\
  (exists r d',
     FRAM_read_current_adr I2C 2 (Some [0]) 1 FRAM_WAIT d = Done r d' /\
     cache_ok d') /\
  (exists r d',
     FRAM_read_from_adr I2C 2 0x1FFFF (Some [0]) 1 d = Done r d' /\
     cache_ok d').
Proof.
  apply (read_side_keeps_cache_in_range (bench 1 0 1) 2 2 0x1FFFF (Some [0])
           1 FRAM_WAIT (initial (bench 1 0 1) 0%nat)).
  - apply bench_completes. right. reflexivity.
  - apply bench_completes. left. reflexivity.
  - lia.
  - lia.
  - left. reflexivity.
Defined.


Lemma FRAM_get_adr_after_read_witness :
  let I2C := bench 1 0 1 in
  let d := initial I2C 0%nat in
  exists a d',
    bind I2C (FRAM_read_current_adr I2C 2 (Some [0; 0]) 2 FRAM_WAIT)
      (fun _ => FRAM_get_adr I2C) d = Done a d' /\
    0 <= a < FRAM_ADR_MAX.
Proof.
  apply (FRAM_get_adr_after_read (bench 1 0 1) 2 2 [0; 0] 2 FRAM_WAIT
           (initial (bench 1 0 1) 0%nat)).
  - intros _. apply bench_completes. left. reflexivity.
  - lia.
  - lia.
  - reflexivity.
Defined.

Lemma no_error_status_moves_cache_iff_zero_witness :
  let I2C := bench 1 1 1 in
  let d := initial I2C 0%nat in
  exists d',
    FRAM_set_adr I2C 2 0x100 FRAM_WAIT d
      = Done (I2C_I2C_MSTR_NO_ERROR I2C) d' /\
    (FRAM_current_adr d' = 0x100 <-> I2C_I2C_MSTR_NO_ERROR I2C = 0).
Proof.
  apply (no_error_status_moves_cache_iff_zero (bench 1 1 1) 2 2 0x100
           FRAM_WAIT (initial (bench 1 1 1) 0%nat)).
  - intros _. apply bench_completes. right. reflexivity.
  - lia.
  - unfold FRAM_ADR_MAX. lia.
  - discriminate.
  - reflexivity.
Defined.

Lemma FRAM_set_adr_then_read_witness :
  let I2C := bench 1 0 1 in
  let d := initial I2C 0%nat in
  exists d1 d2 n,
    FRAM_set_adr I2C 2 0x100 FRAM_WAIT d = Done (set_adr_status 0x100 d) d1 /\
    FRAM_read_from_adr I2C 2 0x100 (Some [0; 0]) 2 d1
      = Done (read_status 2 d1) d2 /\
    calls d2 = calls d1 ++ read_call I2C 2 :: replicate n MasterStatus.
Proof.
  apply (FRAM_set_adr_then_read (bench 1 0 1) 2 2 0x100 FRAM_WAIT [0; 0] 2
           (initial (bench 1 0 1) 0%nat)).
  - apply bench_completes. right. reflexivity.
  - apply bench_completes. left. reflexivity.
  - lia.
  - unfold FRAM_ADR_MAX. lia.
  - lia.
  - reflexivity.
Defined.

Lemma consecutive_reads_set_address_once_witness :
  let I2C := bench 0 0 1 in
  let d := initial I2C 0%nat in
  exists r d1,
    FRAM_read_from_adr I2C 2 0x100 (Some [0; 0]) 2 d = Done r d1 /\
    (r = 0 ->
     FRAM_current_adr d1 = 0x100 + 2 /\
     exists r' d2 k,
       FRAM_read_from_adr I2C 2 (0x100 + 2) (Some [0; 0; 0]) 3 d1
         = Done r' d2 /\
       calls d2 = calls d1 ++ read_call I2C 3 :: replicate k MasterStatus).
Proof.
  apply (consecutive_reads_set_address_once (bench 0 0 1) 2 2 0x100 [0; 0] 2
           [0; 0; 0] 3 (initial (bench 0 0 1) 0%nat)).
  - reflexivity.
  - apply bench_completes. right. reflexivity.
  - apply bench_completes. left. reflexivity.
  - lia.
  - lia.
  - lia.
  - unfold FRAM_ADR_MAX. lia.
  - lia.
Defined.


Example write_then_read_back_calls :
  exists d1 d2,
    FRAM_write_to_adr (bench 0 0 0) 2 0x100 (Some [0xAA; 0xBB]) 2
      (initial (bench 0 0 0) 0%nat) = Done 0 d1 /\
    FRAM_read_from_adr (bench 0 0 0) 2 0x100 (Some [0; 0]) 2 d1 = Done 0 d2 /\
    calls d2 = [MasterWriteBuf 0x50 [0x01; 0x00; 0xAA; 0xBB] 4 0; MasterStatus;
                MasterWriteBuf 0x50 [0x01; 0x00] 2 0; MasterStatus;
                MasterReadBuf 0x50 2 0; MasterStatus] /\
    FRAM_current_adr d2 = 0x102.
Proof.
  eexists _, _. split; [vm_compute; reflexivity|].
  split; [vm_compute; reflexivity|]. split; reflexivity.
Qed.
